(** * krep plug-in [git-diff]: a shallow embedding of
      [subcmds/git_diff_subcmd.py] and the properties of its report.

    The sub-command resolves one or two revisions, walks the commit log of
    every resulting range, and writes the records to up to four documents
    (report.txt, filter.txt, report.html, filter.html).

    The embedding threads two things through every call, as the code does
    through the interpreter: the list of effects performed so far (console
    output, git queries, file-system and document operations) and the
    exception that may unwind the call. *)

From Stdlib Require Import ZArith Lia Ascii String.
From stdpp Require Import base list strings pretty.

Local Open Scope string_scope.
Local Open Scope Z_scope.

(** ** Python string primitives used by the source *)

Module PyStr.

(** The double quote and the line feed, as characters. *)
Definition dquote : ascii := ascii_of_nat 34.
Definition newline : ascii := ascii_of_nat 10.

(** [bool(s)] for a [str]. *)
Definition truthy (s : string) : bool :=
  match s with EmptyString => false | _ => true end.

(** [s.find(c)] for a one-character needle: the first index, or -1. *)
Fixpoint find (c : ascii) (s : string) : Z :=
  match s with
  | EmptyString => -1
  | String a s' =>
      if Ascii.eqb a c then 0
      else let r := find c s' in if r <? 0 then -1 else r + 1
  end.

(** [s.startswith(c)] for a one-character prefix. *)
Definition startswith (c : ascii) (s : string) : bool :=
  match s with
  | EmptyString => false
  | String a _ => Ascii.eqb a c
  end.

(** [c in s]. *)
Fixpoint contains (c : ascii) (s : string) : bool :=
  match s with
  | EmptyString => false
  | String a s' => Ascii.eqb a c || contains c s'
  end.

(** [s.split(c)]: never empty, the pieces between the separators. *)
Fixpoint split (c : ascii) (s : string) : list string :=
  match s with
  | EmptyString => [EmptyString]
  | String a s' =>
      if Ascii.eqb a c then EmptyString :: split c s'
      else match split c s' with
           | [] => [String a EmptyString]
           | h :: t => String a h :: t
           end
  end.

Fixpoint lstrip (p : ascii -> bool) (s : string) : string :=
  match s with
  | EmptyString => EmptyString
  | String a s' => if p a then lstrip p s' else s
  end.

Fixpoint rstrip (p : ascii -> bool) (s : string) : string :=
  match s with
  | EmptyString => EmptyString
  | String a s' =>
      match rstrip p s' with
      | EmptyString => if p a then EmptyString else String a EmptyString
      | r => String a r
      end
  end.

(** [s.strip(chars)] with the character set given as a predicate. *)
Definition strip_with (p : ascii -> bool) (s : string) : string :=
  rstrip p (lstrip p s).

(** [s.strip(q)] with [q] the double quote. *)
Definition strip_quote (s : string) : string :=
  strip_with (fun a => Ascii.eqb a dquote) s.

(** The white space [s.strip()] removes from a byte string:
    space, \t, \n, \v, \f and \r. *)
Definition is_space (a : ascii) : bool :=
  let n := nat_of_ascii a in
  (Nat.eqb n 32 || (Nat.leb 9 n && Nat.leb n 13))%bool.

Definition strip (s : string) : string := strip_with is_space s.

(** [s[:n]] and [s[n:]] for a non-negative [n]. *)
Fixpoint slice_to (n : nat) (s : string) : string :=
  match n, s with
  | O, _ => EmptyString
  | S _, EmptyString => EmptyString
  | S n', String a s' => String a (slice_to n' s')
  end.

Fixpoint slice_from (n : nat) (s : string) : string :=
  match n, s with
  | O, _ => s
  | S _, EmptyString => EmptyString
  | S n', String _ s' => slice_from n' s'
  end.

Definition lower_char (a : ascii) : ascii :=
  let n := nat_of_ascii a in
  if (Nat.leb 65 n && Nat.leb n 90)%bool then ascii_of_nat (n + 32) else a.

(** [s.lower()] on ASCII letters. *)
Fixpoint lower (s : string) : string :=
  match s with
  | EmptyString => EmptyString
  | String a s' => String (lower_char a) (lower s')
  end.

(** [os.path.join(a, b)] for a relative [b]. *)
Fixpoint ends_with_slash (s : string) : bool :=
  match s with
  | EmptyString => false
  | String a EmptyString => Ascii.eqb a "/"%char
  | String _ s' => ends_with_slash s'
  end.

Definition path_join (a b : string) : string :=
  match a with
  | EmptyString => b
  | _ => if ends_with_slash a then a ++ b else a ++ "/" ++ b
  end.

End PyStr.

(** ** Exceptions, effects and the interpreter monad *)

Inductive exn : Type :=
| RevisionError (msg : string)       (* class RevisionError(KrepError) *)
| OptionMissed (msg : string)        (* RaiseExceptionIfOptionMissed *)
| AttributeError (msg : string)      (* failed attribute lookup *)
| TypeError (msg : string)           (* call of a non-callable *)
| IOError.                           (* a document or directory operation *)

Inductive result (A : Type) : Type :=
| Ok (a : A)
| Raise (e : exn).
Arguments Ok {A} a.
Arguments Raise {A} e.

(** The four document variables of [generate_report]. *)
Inductive handle : Type := Ftext | Ftextp | Fhtml | Fhtmlp.

#[global] Instance handle_eq_dec : EqDecision handle.
Proof. solve_decision. Defined.

Inductive doc_format : Type := TEXT | HTML.

(** What [FormattedFile.item] returns: a renderable cell.  A plain string
    is a cell too; the argument of [item] may be a pair of cells. *)
Inductive cell : Type :=
| Str (s : string)
| Pair (a b : cell)
| Item (owner : handle) (content : cell)
       (link : option string) (tag : option string).

(** The argument of [FormattedFile.table]. *)
Inductive table_arg : Type :=
| Widths (column : list nat)
| Css (class : string).

(** A table row: its cells and the [td_csses] keyword, when given. *)
Record row : Type := mk_row {
  row_cells : list cell;
  row_td_csses : option (list string)
}.

Inductive doc_event : Type :=
| EvOpen (path name : string) (fmt : doc_format) (css : option string)
| EvSection (label : string)
| EvTable (arg : table_arg)          (* __enter__ of the table writer *)
| EvRow (r : row)
| EvTableExit                        (* __exit__ of the table writer *)
| EvClose.

Inductive effect : Type :=
| Console (line : string)                   (* print(...) *)
| GitRevParse (refs : string)               (* project.rev_parse *)
| GitRevList (opt refs : string)            (* project.rev_list *)
| GitLog (fmt range : string)               (* project.log *)
| PathExists (path : string)                (* os.path.exists *)
| Makedirs (path : string)                  (* os.makedirs *)
| Doc (h : handle) (e : doc_event).         (* FormattedFile calls *)

(** The interpreter state: the effects so far, and how many further
    document or directory operations succeed before one raises
    ([None]: none ever fails). *)
Record world : Type := mk_world {
  trace : list effect;
  io_budget : option nat
}.

Definition M (A : Type) : Type := world -> result A * world.

Definition ret {A} (a : A) : M A := fun w => (Ok a, w).

Definition bind {A B} (m : M A) (f : A -> M B) : M B :=
  fun w => match m w with
           | (Ok a, w') => f a w'
           | (Raise e, w') => (Raise e, w')
           end.

Definition raise {A} (e : exn) : M A := fun w => (Raise e, w).

Definition emit (effs : list effect) (w : world) : world :=
  {| trace := (trace w ++ effs)%list; io_budget := io_budget w |}.

(** An effect that cannot fail. *)
Definition perform (e : effect) : M unit := fun w => (Ok tt, emit [e] w).

(** A document or directory operation: raises when the budget is spent. *)
Definition io (e : effect) : M unit :=
  fun w => match io_budget w with
           | Some O => (Raise IOError, w)
           | Some (S n) =>
               (Ok tt, {| trace := (trace w ++ [e])%list; io_budget := Some n |})
           | None => (Ok tt, emit [e] w)
           end.

(** [try: body finally: fin] where [fin] only records an effect. *)
Definition finally {A} (body : M A) (fin : effect) : M A :=
  fun w => let '(r, w') := body w in (r, emit [fin] w').

Declare Scope m_scope.
Delimit Scope m_scope with M.
Notation "x <- c ;; k" := (bind c (fun x => k))
  (at level 100, c at next level, right associativity) : m_scope.
Notation "c ;;; k" := (bind c (fun _ => k))
  (at level 100, right associativity) : m_scope.
Local Open Scope m_scope.

(** [for x in l: f(x)]. *)
Fixpoint for_each {A} (l : list A) (f : A -> M unit) : M unit :=
  match l with
  | [] => ret tt
  | x :: l' => f x ;;; for_each l' f
  end.

(** The world a fresh invocation starts from. *)
Definition fresh (budget : option nat) : world :=
  {| trace := []; io_budget := budget |}.

(** ** External collaborators *)

(** [GitProject]: the remote name and the three queries, each returning
    [(status, output)]. *)
Record GitProject : Type := mk_project {
  remote_name : string;
  rev_parse_fn : string -> Z * string;
  rev_list_fn : string -> string -> Z * string;
  log_fn : string -> string -> Z * string
}.

Definition rev_parse (gitp : GitProject) (refs : string) : M (Z * string) :=
  perform (GitRevParse refs) ;;; ret (rev_parse_fn gitp refs).

Definition rev_list (gitp : GitProject) (opt refs : string) : M (Z * string) :=
  perform (GitRevList opt refs) ;;; ret (rev_list_fn gitp opt refs).

Definition log (gitp : GitProject) (fmt range : string) : M (Z * string) :=
  perform (GitLog fmt range) ;;; ret (log_fn gitp fmt range).

(** [topics.Pattern]: the constructor ([None] for [Pattern()], [Some pats]
    for [Pattern(pats)]), its truth value and [match(names, value)]. *)
Class PatternClass (P : Type) : Type := {
  Pattern : option (list string) -> P;
  pattern_bool : P -> bool;
  pattern_match : P -> string -> string -> bool
}.

(** ** [GitDiffSubcmd.build_pattern] *)

(** One turn of the loop of [build_pattern]: the token appended to [pats]. *)
Definition build_token (pat : string) : string :=
  if 0 <? PyStr.find ":" pat then pat else "email:" ++ pat.

Definition build_pats (patterns : list string) : list string :=
  map build_token patterns.

Definition build_pattern `{PatternClass P} (patterns : option (list string)) : P :=
  match patterns with
  | Some (p :: ps) => Pattern (Some (build_pats (p :: ps)))
  | _ => Pattern None
  end.

(** ** [_secure_sha] *)

Definition _secure_sha (project gitp : GitProject) (refs : string) : M string :=
  r <- rev_parse gitp refs ;;
  let '(rc, sha1) := r in
  if rc =? 0 then ret sha1
  else
    r <- rev_parse gitp (remote_name project ++ "/" ++ refs) ;;
    let '(rc, sha1) := r in
    if rc =? 0 then ret sha1
    else raise (RevisionError ("Unknown " ++ refs)).

(** ** Console, file system and [FormattedFile] operations *)

Definition print (line : string) : M unit := perform (Console line).

Definition makedirs (path : string) : M unit := io (Makedirs path).

Definition FormattedFile_open (h : handle) (path name : string)
    (fmt : doc_format) (css : option string) : M handle :=
  io (Doc h (EvOpen path name fmt css)) ;;; ret h.

Definition section (h : handle) (label : string) : M unit :=
  io (Doc h (EvSection label)).

(** [with h.table(arg) as table: body]: the writer is left on every exit
    of the body. *)
Definition with_table (h : handle) (arg : table_arg) (body : M unit) : M unit :=
  io (Doc h (EvTable arg)) ;;; finally body (Doc h EvTableExit).

Definition table_row (h : handle) (cells : list cell)
    (td_csses : option (list string)) : M unit :=
  io (Doc h (EvRow (mk_row cells td_csses))).

Definition close (h : handle) : M unit := io (Doc h EvClose).

Definition item (h : handle) (content : cell)
    (link tag : option string) : cell :=
  Item h content link tag.

(** ** Class constants of [GitDiffSubcmd] *)

Definition nl : string := String PyStr.newline EmptyString.
Definition dq : string := String PyStr.dquote EmptyString.

Definition REPORT_TEXT : string := "report.txt".
Definition REPORT_HTML : string := "report.html".
Definition FILTER_TEXT : string := "filter.txt".
Definition FILTER_HTML : string := "filter.html".

Definition HTML_CSS : string :=
  "<style type=" ++ dq ++ "text/css" ++ dq ++ ">" ++ nl ++
  "  pre,code{font-family:courier;}" ++ nl ++
  "  h5 {font-family: " ++ dq ++ "Roboto" ++ dq ++ ", Sans-Serif;}" ++ nl ++
  "  .details," ++ nl ++
  "  .show," ++ nl ++
  "  .hide:focus {display: none;}" ++ nl ++
  "  .hide:focus + .show {display: inline;}" ++ nl ++
  "  .hide:focus ~ #details {display: block;}" ++ nl ++ nl ++
  "  .hoverTable{font-family: verdana,arial,sans-serif;" ++
  "width:1200px;border-collapse:collapse;font-size:11px;" ++
  "text-align:left;}" ++ nl ++
  "  .hoverTable td{padding:3px;}" ++ nl ++
  "  .hoverTable tr{background: #b8d1f3;}" ++ nl ++
  "  .hoverTable tr:nth-child(odd){background: #dae5f4;}" ++ nl ++
  "  .hoverTable tr:nth-child(even){background: #ffffff;}" ++ nl ++
  "  .hoverTable tr:hover {background-color: #bbbbbb;}" ++ nl ++
  "  .sha1 {width:350px}" ++ nl ++
  "  .email {width:200px}" ++ nl ++
  "  .title {width:450px}" ++ nl ++
  "</style>" ++ nl.

Definition TABLE_CSS : list string := ["sha1"; "email"; "email"; "title"].

(** ** Commit records *)

(** One entry of [logs]: the list [[sha1, author, committer, subject]]. *)
Record CommitRecord : Type := mk_record {
  rec_sha1 : string;
  rec_author : string;
  rec_committer : string;
  rec_subject : string
}.

Definition fields (r : CommitRecord) : list string :=
  [rec_sha1 r; rec_author r; rec_committer r; rec_subject r].

(** The documents of a run: [None] where the variable stays [None]. *)
Record documents : Type := mk_documents {
  ftext : option handle;
  ftextp : option handle;
  fhtml : option handle;
  fhtmlp : option handle
}.

(** ** [GitDiffSubcmd.generate_report] *)

Section GenerateReport.

Context {P : Type} `{PatternClass P}.

(** The arguments of [generate_report], and what [os.path.exists]
    answers. *)
Variables (args : list string) (project : GitProject)
          (name output : string) (format : option string)
          (patterns : option (list string))
          (remote : option string) (gitiles : bool)
          (os_path_exists : string -> bool).

(** Lines 143-154: the end reference and the begin references. *)
Definition resolve_ranges : M (string * list string) :=
  if (length args <? 2)%nat then
    (if (length args =? 0)%nat
     then print "No SHA-1 provided, use HEAD by default"
     else ret tt) ;;;
    erefs <- _secure_sha project project
               (match args with a :: _ => a | [] => "HEAD" end) ;;
    r <- rev_list project "--max-parents=0" erefs ;;
    let '(rc, head) := r in
    ret (erefs, if rc =? 0 then PyStr.split PyStr.newline head else [])
  else
    erefs <- _secure_sha project project (default "" (args !! 1%nat)) ;;
    bref <- _secure_sha project project (default "" (args !! 0%nat)) ;;
    ret (erefs, [bref]).

Definition format_truthy : bool :=
  match format with Some f => PyStr.truthy f | None => false end.

Definition format_in (choices : list string) : bool :=
  match format with
  | Some f => bool_decide (f ∈ choices)
  | None => false
  end.

Definition open_if {A} (c : bool) (m : M A) : M (option A) :=
  if c then (a <- m ;; ret (Some a)) else ret None.

(** Lines 156-182: the output directory and the documents. *)
Definition open_documents (pattern : P) : M documents :=
  (if os_path_exists output then perform (PathExists output)
   else perform (PathExists output) ;;; makedirs output) ;;;
  ft <- open_if (format_truthy && format_in ["all"; "text"])
          (FormattedFile_open Ftext
             (PyStr.path_join output REPORT_TEXT) name TEXT None) ;;
  ftp <- open_if (format_truthy && format_in ["all"; "text"]
                  && pattern_bool pattern)
          (FormattedFile_open Ftextp
             (PyStr.path_join output FILTER_TEXT) name TEXT None) ;;
  fh <- open_if (format_truthy && format_in ["all"; "html"])
          (FormattedFile_open Fhtml
             (PyStr.path_join output REPORT_HTML) name HTML
             (Some HTML_CSS)) ;;
  fhp <- open_if (format_truthy && format_in ["all"; "html"]
                  && pattern_bool pattern)
          (FormattedFile_open Fhtmlp
             (PyStr.path_join output FILTER_HTML) name HTML
             (Some HTML_CSS)) ;;
  ret (mk_documents ft ftp fh fhp).

(** Lines 198-201: one field of one commit. *)
Definition query_field (sha1 fmt_item : string) : M string :=
  r <- log project ("--format=" ++ fmt_item) (sha1 ++ "^.." ++ sha1) ;;
  ret (PyStr.strip (PyStr.strip_quote (snd r))).

(** Lines 193-202: one line of the hash list. *)
Definition extract_commit (line : string) (logs : list CommitRecord)
    : M (list CommitRecord) :=
  let sha1 := PyStr.strip_quote line in
  if negb (PyStr.truthy sha1) then ret logs
  else
    ae <- query_field sha1 "%ae" ;;
    ce <- query_field sha1 "%ce" ;;
    s <- query_field sha1 "%s" ;;
    ret ((logs ++ [mk_record sha1 ae ce s])%list).

Fixpoint extract_commits (lines : list string) (logs : list CommitRecord)
    : M (list CommitRecord) :=
  match lines with
  | [] => ret logs
  | line :: lines' =>
      logs' <- extract_commit line logs ;; extract_commits lines' logs'
  end.

(** Lines 190-202: the log of one range, appended to [logs]. *)
Definition extract_range (ref erefs : string) (logs : list CommitRecord)
    : M (list CommitRecord) :=
  r <- log project ("--format=" ++ dq ++ "%H") (ref ++ ".." ++ erefs) ;;
  let '(rc, sha1s) := r in
  if rc =? 0 then extract_commits (PyStr.split PyStr.newline sha1s) logs
  else ret logs.

(** Lines 207-210: the widths after one more record. *)
Definition update_column (column : list nat) (item : list string)
    : list nat :=
  fold_left
    (fun column kc =>
       let '(k, col) := kc in
       let len := String.length col in
       match column !! k with
       | Some w => if (w <? len)%nat then <[k:=len]> column else column
       | None => column
       end)
    (imap pair item) column.

(** Lines 205-210. *)
Definition compute_column (logs : list CommitRecord) : list nat :=
  fold_left (fun column r => update_column column (fields r))
            logs [0; 0; 0; 0]%nat.

Definition text_row (r : CommitRecord) : list cell :=
  [Str (rec_sha1 r); Str (rec_author r);
   Str (rec_committer r); Str (rec_subject r)].

(** Lines 204-222: the sections of the text documents. *)
Definition render_text (pattern : P) (docs : documents) (refs : string)
    (logs : list CommitRecord) : M unit :=
  match ftext docs with
  | Some ft =>
      let column := compute_column logs in
      section ft refs ;;;
      with_table ft (Widths column)
        (for_each logs (fun r => table_row ft (text_row r) None)) ;;;
      match ftextp docs with
      | Some ftp =>
          section ftp refs ;;;
          with_table ftp (Widths column)
            (for_each logs (fun r =>
               if pattern_match pattern "e,email" (rec_committer r)
               then table_row ftp (text_row r) None
               else ret tt))
      | None => ret tt
      end
  | None => ret tt
  end.

Definition remote_truthy : bool :=
  match remote with Some r => PyStr.truthy r | None => false end.

Definition remote_str : string := default "" remote.

Definition mailto (fh : handle) (address : string) : cell :=
  item fh (Str address) (Some ("mailto:" ++ address)) None.

(** Lines 228-253: the row of one record in report.html. *)
Definition html_row (fh : handle) (r : CommitRecord) : row :=
  let sha1 := rec_sha1 r in
  let hauthor := mailto fh (rec_author r) in
  let hcommitter := mailto fh (rec_committer r) in
  if negb remote_truthy then
    mk_row [Str sha1; hauthor; hcommitter; Str (rec_subject r)]
           (Some TABLE_CSS)
  else if gitiles && PyStr.truthy name then
    let sha1a := item fh (Str (PyStr.slice_to 20 sha1))
                   (Some (remote_str ++ "#/q/" ++ sha1)) None in
    let sha1b := item fh (Str (PyStr.slice_from 20 sha1))
                   (Some (remote_str ++ "/plugins/gitiles/" ++ name
                          ++ "/+/" ++ sha1 ++ "^!")) None in
    mk_row [item fh (Pair sha1a sha1b) None (Some "pre");
            hauthor; hcommitter; Str (rec_subject r)]
           (Some TABLE_CSS)
  else
    let link := item fh (Str sha1)
                  (Some (remote_str ++ "#/q/" ++ sha1)) (Some "pre") in
    mk_row [link; hauthor; hcommitter; Str (rec_subject r)]
           (Some TABLE_CSS).

(** Lines 262-283: the row of one matching record in filter.html. *)
Definition html_row_p (fh fhp : handle) (r : CommitRecord) : row :=
  let sha1 := rec_sha1 r in
  let hauthor := mailto fh (rec_author r) in
  let hcommitter := mailto fh (rec_committer r) in
  if negb remote_truthy then
    mk_row [Str sha1; hauthor; hcommitter; Str (rec_subject r)] None
  else if gitiles && PyStr.truthy name then
    let sha1a := item fhp (Str (PyStr.slice_to 20 sha1))
                   (Some (remote_str ++ "#q," ++ sha1)) None in
    let sha1b := item fhp (Str (PyStr.slice_from 20 sha1))
                   (Some (remote_str ++ "/plugins/gitiles/" ++ name
                          ++ "/+/" ++ sha1 ++ "^!")) None in
    mk_row [item fhp (Pair sha1a sha1b) None (Some "pre");
            hauthor; hcommitter; Str (rec_subject r)] None
  else
    let link := item fhp (Str sha1)
                  (Some (remote_str ++ "#q," ++ sha1)) (Some "pre") in
    mk_row [link; hauthor; hcommitter; Str (rec_subject r)] None.

Definition write_row (h : handle) (r : row) : M unit :=
  table_row h (row_cells r) (row_td_csses r).

(** Lines 224-283: the sections of the HTML documents. *)
Definition render_html (pattern : P) (docs : documents) (refs : string)
    (logs : list CommitRecord) : M unit :=
  match fhtml docs with
  | Some fh =>
      section fh refs ;;;
      with_table fh (Css "hoverTable")
        (for_each logs (fun r => write_row fh (html_row fh r))) ;;;
      match fhtmlp docs with
      | Some fhp =>
          section fhp refs ;;;
          with_table fhp (Css "hoverTable")
            (for_each logs (fun r =>
               if negb (pattern_match pattern "e,email" (rec_committer r))
               then ret tt
               else write_row fhp (html_row_p fh fhp r)))
      | None => ret tt
      end
  | None => ret tt
  end.

(** Lines 187-188: the label of the section of [ref]. *)
Definition section_label (erefs : string) (brefs : list string)
    (ref : string) : string :=
  if (0 <? length brefs)%nat && (1 <? length args)%nat
  then ref ++ ".." ++ erefs else erefs.

(** Lines 186-283: [for ref in brefs], with [logs] carried from one
    turn to the next. *)
Fixpoint report_loop (pattern : P) (docs : documents) (erefs : string)
    (brefs : list string) (todo : list string) (logs : list CommitRecord)
    : M (list CommitRecord) :=
  match todo with
  | [] => ret logs
  | ref :: todo' =>
      let refs := section_label erefs brefs ref in
      logs' <- extract_range ref erefs logs ;;
      render_text pattern docs refs logs' ;;;
      render_html pattern docs refs logs' ;;;
      report_loop pattern docs erefs brefs todo' logs'
  end.

Definition close_if (d : option handle) : M unit :=
  match d with Some h => close h | None => ret tt end.

(** Lines 285-292. *)
Definition close_documents (docs : documents) : M unit :=
  close_if (ftextp docs) ;;;
  close_if (fhtmlp docs) ;;;
  close_if (ftext docs) ;;;
  close_if (fhtml docs).

Definition generate_report : M (list CommitRecord) :=
  let pattern : P := build_pattern patterns in
  rg <- resolve_ranges ;;
  let '(erefs, brefs) := rg in
  docs <- open_documents pattern ;;
  logs <- report_loop pattern docs erefs brefs brefs [] ;;
  close_documents docs ;;;
  ret logs.

End GenerateReport.

(** ** [GitDiffSubcmd.execute] *)

(** What [urlparse] returns: the attributes [execute] reads. *)
Record ParseResult : Type := mk_parse_result {
  scheme : string;
  path : string;
  hostname : option string;
  port : option Z
}.

(** The two kinds of Python object a module-level name of this file can
    be bound to by an import: a function, or a module with attributes. *)
#[local] Unset Elimination Schemes.
Inductive pyobj : Type :=
| PyFunction (qualname : string) (call : string -> ParseResult)
| PyModule (modname : string) (attrs : string -> option pyobj).
#[local] Set Elimination Schemes.

(** [o.attr]: a function object has no attribute of that name. *)
Definition getattr (o : pyobj) (attr : string) : M pyobj :=
  match o with
  | PyFunction _ _ =>
      raise (AttributeError
               ("'function' object has no attribute '" ++ attr ++ "'"))
  | PyModule m attrs =>
      match attrs attr with
      | Some v => ret v
      | None =>
          raise (AttributeError
                   ("module '" ++ m ++ "' has no attribute '" ++ attr ++ "'"))
      end
  end.

(** [o(arg)]. *)
Definition pycall (o : pyobj) (arg : string) : M ParseResult :=
  match o with
  | PyFunction _ f => ret (f arg)
  | PyModule m _ =>
      raise (TypeError "'module' object is not callable")
  end.

(** The options [execute] reads. *)
Record Options : Type := mk_options {
  opt_remote : option string;
  opt_output : option string;
  opt_gitiles : bool;
  opt_format : option string;
  opt_pattern : option (list string)
}.

(** Modelled from the spec: [RaiseExceptionIfOptionMissed] is imported from
    [topics] and not in the source tree; a missing output path is a fatal
    configuration error raised before any processing. *)
Definition RaiseExceptionIfOptionMissed (option : option string)
    (message : string) : M unit :=
  match option with
  | Some v => if PyStr.truthy v then ret tt else raise (OptionMissed message)
  | None => raise (OptionMissed message)
  end.

Section Execute.

Context {P : Type} `{PatternClass P}.

(** The function [urllib.parse.urlparse] (or [urlparse.urlparse]). *)
Variable urlparse_fn : string -> ParseResult.

(** Lines 4-7: [from urllib.parse import urlparse], and in the fallback
    [from urlparse import urlparse]: either way the name [urlparse] is
    bound to the function. *)
Definition urlparse : pyobj := PyFunction "urlparse" urlparse_fn.

Definition strip_slash (s : string) : string :=
  PyStr.strip_with (fun a => Ascii.eqb a "/"%char) s.

(** ['%s' % hostname]. *)
Definition str_of_hostname (h : option string) : string :=
  default "None" h.

Definition port_truthy (p : option Z) : bool :=
  match p with Some n => negb (n =? 0) | None => false end.

(** Lines 94-101: the project name and the remote location. *)
Definition split_remote (options : Options)
    : M (option string * option string) :=
  match opt_remote options with
  | Some r =>
      if PyStr.truthy r then
        f <- getattr urlparse "urlparse" ;;
        ulp <- pycall f r ;;
        if PyStr.truthy (path ulp) then
          let name := strip_slash (path ulp) in
          let remote :=
            scheme ulp ++ "://" ++ str_of_hostname (hostname ulp) in
          let remote :=
            if port_truthy (port ulp)
            then remote ++ ":" ++ pretty (default 0 (port ulp))
            else remote in
          ret (Some name, Some remote)
        else ret (None, Some r)
      else ret (None, Some r)
  | None => ret (None, None)
  end.

(** Lines 89-107.  [project] stands for [GitProject(None, worktree=...)];
    the call of the base class has no effect of its own here. *)
Definition execute (options : Options) (project : GitProject)
    (os_path_exists : string -> bool) (args : list string)
    : M (list CommitRecord) :=
  RaiseExceptionIfOptionMissed (opt_output options) "output is not set" ;;;
  nr <- split_remote options ;;
  let '(name, remote) := nr in
  let format := option_map PyStr.lower (opt_format options) in
  generate_report (P:=P) args project (default "" name)
    (default "" (opt_output options)) format (opt_pattern options)
    remote (opt_gitiles options) os_path_exists.

End Execute.

(** ** A pattern matcher *)

Module SpecPattern.

(** Modelled from the spec: the class [Pattern] is imported from [topics]
    and not in the source tree.  A pattern is a set of [field:value]
    expressions; it is true when it has at least one; a value matches
    when any expression whose field is one of the comma-separated names
    has its value occurring in it. *)
Definition expr : Type := (string * string)%type.

Fixpoint split_colon (s : string) : expr :=
  match s with
  | EmptyString => (EmptyString, EmptyString)
  | String a s' =>
      if Ascii.eqb a ":"%char then (EmptyString, s')
      else let '(f, v) := split_colon s' in (String a f, v)
  end.

Fixpoint occurs_in (needle hay : string) : bool :=
  String.prefix needle hay ||
  match hay with
  | EmptyString => false
  | String _ hay' => occurs_in needle hay'
  end.

Definition matches (pat : list expr) (names value : string) : bool :=
  match pat with
  | [] => true
  | _ =>
      existsb
        (fun e => bool_decide (fst e ∈ PyStr.split ","%char names)
                  && occurs_in (snd e) value)
        pat
  end.

#[global] Instance pattern_class : PatternClass (list expr) := {
  Pattern := fun pats => map split_colon (default [] pats);
  pattern_bool := fun pat => match pat with [] => false | _ => true end;
  pattern_match := matches
}.

End SpecPattern.

(** ** Reading a trace *)

(** The events of one document, in order. *)
Fixpoint doc_events (h : handle) (tr : list effect) : list doc_event :=
  match tr with
  | [] => []
  | Doc h' e :: tr' =>
      if decide (h' = h) then e :: doc_events h tr' else doc_events h tr'
  | _ :: tr' => doc_events h tr'
  end.

(** A section as it stands in a document: its label, the argument its
    table was opened with, and the rows written to it. *)
Record section_view : Type := mk_section {
  sec_label : string;
  sec_table : option table_arg;
  sec_rows : list row
}.

Fixpoint table_of (evs : list doc_event) : option table_arg :=
  match evs with
  | [] => None
  | EvSection _ :: _ => None
  | EvTable a :: _ => Some a
  | _ :: evs' => table_of evs'
  end.

Fixpoint rows_of (evs : list doc_event) : list row :=
  match evs with
  | [] => []
  | EvSection _ :: _ => []
  | EvRow r :: evs' => r :: rows_of evs'
  | _ :: evs' => rows_of evs'
  end.

Fixpoint doc_sections (evs : list doc_event) : list section_view :=
  match evs with
  | [] => []
  | EvSection l :: evs' =>
      mk_section l (table_of evs') (rows_of evs') :: doc_sections evs'
  | _ :: evs' => doc_sections evs'
  end.

Definition sections_of (h : handle) (w : world) : list section_view :=
  doc_sections (doc_events h (trace w)).

(** The handles opened, and the handles closed, in the order of the calls. *)
Fixpoint opened_handles (tr : list effect) : list handle :=
  match tr with
  | [] => []
  | Doc h (EvOpen _ _ _ _) :: tr' => h :: opened_handles tr'
  | _ :: tr' => opened_handles tr'
  end.

Fixpoint closed_handles (tr : list effect) : list handle :=
  match tr with
  | [] => []
  | Doc h EvClose :: tr' => h :: closed_handles tr'
  | _ :: tr' => closed_handles tr'
  end.

(** The text a cell shows. *)
Fixpoint cell_text (c : cell) : string :=
  match c with
  | Str s => s
  | Pair a b => cell_text a ++ cell_text b
  | Item _ content _ _ => cell_text content
  end.

Definition row_text (r : row) : list string := map cell_text (row_cells r).

(** ** What a run without failing operation computes *)

(** [runs m v effs]: where no document or directory operation fails, [m]
    returns [v] after performing exactly [effs]. *)
Definition runs {A} (m : M A) (v : A) (effs : list effect) : Prop :=
  forall w, io_budget w = None -> m w = (Ok v, emit effs w).

(** The events a section leaves in its document. *)
Definition section_events (label : string) (arg : table_arg)
    (rows : list row) : list doc_event :=
  EvSection label :: EvTable arg :: (map EvRow rows ++ [EvTableExit])%list.

Definition section_effects (h : handle) (label : string) (arg : table_arg)
    (rows : list row) : list effect :=
  map (Doc h) (section_events label arg rows).

Section Characterisation.

Context {P : Type} `{PatternClass P}.

Variables (args : list string) (project : GitProject)
          (name output : string) (format : option string)
          (patterns : option (list string))
          (remote : option string) (gitiles : bool)
          (os_path_exists : string -> bool).

(** The value of [_secure_sha], when it returns. *)
Definition secure_value (refs : string) : option string :=
  let '(rc, sha1) := rev_parse_fn project refs in
  if rc =? 0 then Some sha1
  else
    let '(rc, sha1) :=
      rev_parse_fn project (remote_name project ++ "/" ++ refs) in
    if rc =? 0 then Some sha1 else None.

(** The queries [_secure_sha] issues. *)
Definition secure_effects (refs : string) : list effect :=
  if fst (rev_parse_fn project refs) =? 0 then [GitRevParse refs]
  else [GitRevParse refs;
        GitRevParse (remote_name project ++ "/" ++ refs)].

Definition first_ref : string :=
  match args with a :: _ => a | [] => "HEAD" end.

(** What [resolve_ranges] returns. *)
Definition resolve_value : result (string * list string) :=
  if (length args <? 2)%nat then
    match secure_value first_ref with
    | Some erefs =>
        let '(rc, head) := rev_list_fn project "--max-parents=0" erefs in
        Ok (erefs, if rc =? 0 then PyStr.split PyStr.newline head else [])
    | None => Raise (RevisionError ("Unknown " ++ first_ref))
    end
  else
    match secure_value (default "" (args !! 1%nat)) with
    | Some erefs =>
        match secure_value (default "" (args !! 0%nat)) with
        | Some bref => Ok (erefs, [bref])
        | None =>
            Raise (RevisionError ("Unknown " ++ default "" (args !! 0%nat)))
        end
    | None =>
        Raise (RevisionError ("Unknown " ++ default "" (args !! 1%nat)))
    end.

(** The console line and the queries of [resolve_ranges]. *)
Definition resolve_effects : list effect :=
  if (length args <? 2)%nat then
    ((if (length args =? 0)%nat
      then [Console "No SHA-1 provided, use HEAD by default"] else []) ++
     secure_effects first_ref ++
     match secure_value first_ref with
     | Some erefs => [GitRevList "--max-parents=0" erefs]
     | None => []
     end)%list
  else
    (secure_effects (default "" (args !! 1%nat)) ++
     match secure_value (default "" (args !! 1%nat)) with
     | Some _ => secure_effects (default "" (args !! 0%nat))
     | None => []
     end)%list.

Definition field_value (sha1 fmt_item : string) : string :=
  PyStr.strip (PyStr.strip_quote
    (snd (log_fn project ("--format=" ++ fmt_item) (sha1 ++ "^.." ++ sha1)))).

(** The records one line of the hash list stands for: none or one. *)
Definition line_records (line : string) : list CommitRecord :=
  let sha1 := PyStr.strip_quote line in
  if PyStr.truthy sha1
  then [mk_record sha1 (field_value sha1 "%ae") (field_value sha1 "%ce")
                  (field_value sha1 "%s")]
  else [].

Definition line_effects (line : string) : list effect :=
  let sha1 := PyStr.strip_quote line in
  if PyStr.truthy sha1
  then [GitLog "--format=%ae" (sha1 ++ "^.." ++ sha1);
        GitLog "--format=%ce" (sha1 ++ "^.." ++ sha1);
        GitLog "--format=%s" (sha1 ++ "^.." ++ sha1)]
  else [].

Definition hash_query (ref erefs : string) : Z * string :=
  log_fn project ("--format=" ++ dq ++ "%H") (ref ++ ".." ++ erefs).

(** The records extracted from the range [ref..erefs]. *)
Definition range_records (erefs ref : string) : list CommitRecord :=
  if fst (hash_query ref erefs) =? 0
  then flat_map line_records
         (PyStr.split PyStr.newline (snd (hash_query ref erefs)))
  else [].

Definition range_effects (erefs ref : string) : list effect :=
  GitLog ("--format=" ++ dq ++ "%H") (ref ++ ".." ++ erefs) ::
  (if fst (hash_query ref erefs) =? 0
   then flat_map line_effects
          (PyStr.split PyStr.newline (snd (hash_query ref erefs)))
   else []).

(** The turns of the loop over [brefs]: each begin reference with the
    value of [logs] once its range has been extracted. *)
Fixpoint iterations (erefs : string) (todo : list string)
    (logs : list CommitRecord) : list (string * list CommitRecord) :=
  match todo with
  | [] => []
  | ref :: todo' =>
      let logs' := (logs ++ range_records erefs ref)%list in
      (ref, logs') :: iterations erefs todo' logs'
  end.

(** [logs] after the loop. *)
Definition all_records (erefs : string) (todo : list string)
    (logs : list CommitRecord) : list CommitRecord :=
  (logs ++ flat_map (range_records erefs) todo)%list.

Definition matching (pattern : P) (r : CommitRecord) : bool :=
  pattern_match pattern "e,email" (rec_committer r).

Definition plain_row (r : CommitRecord) : row := mk_row (text_row r) None.

Definition text_effects (pattern : P) (docs : documents) (refs : string)
    (logs : list CommitRecord) : list effect :=
  match ftext docs with
  | Some ft =>
      (section_effects ft refs (Widths (compute_column logs))
         (map plain_row logs) ++
       match ftextp docs with
       | Some ftp =>
           section_effects ftp refs (Widths (compute_column logs))
             (map plain_row (List.filter (matching pattern) logs))
       | None => []
       end)%list
  | None => []
  end.

Definition html_effects (pattern : P) (docs : documents) (refs : string)
    (logs : list CommitRecord) : list effect :=
  match fhtml docs with
  | Some fh =>
      (section_effects fh refs (Css "hoverTable")
         (map (html_row name remote gitiles fh) logs) ++
       match fhtmlp docs with
       | Some fhp =>
           section_effects fhp refs (Css "hoverTable")
             (map (html_row_p name remote gitiles fh fhp)
                  (List.filter (matching pattern) logs))
       | None => []
       end)%list
  | None => []
  end.

Definition iteration_effects (pattern : P) (docs : documents)
    (erefs : string) (brefs : list string)
    (it : string * list CommitRecord) : list effect :=
  (range_effects erefs (fst it) ++
   text_effects pattern docs (section_label args erefs brefs (fst it)) (snd it) ++
   html_effects pattern docs (section_label args erefs brefs (fst it)) (snd it))%list.

Definition want_text : bool :=
  format_truthy format && format_in format ["all"; "text"].

Definition want_html : bool :=
  format_truthy format && format_in format ["all"; "html"].

(** The documents [open_documents] opens. *)
Definition opened_documents (pattern : P) : documents :=
  mk_documents
    (if want_text then Some Ftext else None)
    (if want_text && pattern_bool pattern then Some Ftextp else None)
    (if want_html then Some Fhtml else None)
    (if want_html && pattern_bool pattern then Some Fhtmlp else None).

Definition open_effects (pattern : P) : list effect :=
  (PathExists output ::
   (if os_path_exists output then [] else [Makedirs output]) ++
   (if want_text
    then [Doc Ftext (EvOpen (PyStr.path_join output REPORT_TEXT)
                            name TEXT None)] else []) ++
   (if want_text && pattern_bool pattern
    then [Doc Ftextp (EvOpen (PyStr.path_join output FILTER_TEXT)
                             name TEXT None)] else []) ++
   (if want_html
    then [Doc Fhtml (EvOpen (PyStr.path_join output REPORT_HTML)
                            name HTML (Some HTML_CSS))] else []) ++
   (if want_html && pattern_bool pattern
    then [Doc Fhtmlp (EvOpen (PyStr.path_join output FILTER_HTML)
                             name HTML (Some HTML_CSS))] else []))%list.

Definition close_effects (docs : documents) : list effect :=
  (match ftextp docs with Some h => [Doc h EvClose] | None => [] end ++
   match fhtmlp docs with Some h => [Doc h EvClose] | None => [] end ++
   match ftext docs with Some h => [Doc h EvClose] | None => [] end ++
   match fhtml docs with Some h => [Doc h EvClose] | None => [] end)%list.

(** Everything [generate_report] does once the ranges are resolved. *)
Definition report_effects (erefs : string) (brefs : list string)
    : list effect :=
  let pattern : P := build_pattern patterns in
  let docs := opened_documents pattern in
  (open_effects pattern ++
   concat (map (iteration_effects pattern docs erefs brefs)
               (iterations erefs brefs [])) ++
   close_effects docs)%list.

End Characterisation.

(** ** What the documents should hold *)

Section Expected.

Context {P : Type} `{PatternClass P}.

Variables (args : list string) (name : string) (format : option string)
          (remote : option string) (gitiles : bool) (pattern : P).

(** Whether [generate_report] opens the document. *)
Definition is_open (h : handle) : bool :=
  match h with
  | Ftext => want_text format
  | Ftextp => want_text format && pattern_bool pattern
  | Fhtml => want_html format
  | Fhtmlp => want_html format && pattern_bool pattern
  end.

(** The section one turn of the loop writes to the document [h]. *)
Definition section_at (h : handle) (erefs : string) (brefs : list string)
    (it : string * list CommitRecord) : section_view :=
  let refs := section_label args erefs brefs (fst it) in
  let logs := snd it in
  match h with
  | Ftext =>
      mk_section refs (Some (Widths (compute_column logs)))
        (map plain_row logs)
  | Ftextp =>
      mk_section refs (Some (Widths (compute_column logs)))
        (map plain_row (List.filter (matching pattern) logs))
  | Fhtml =>
      mk_section refs (Some (Css "hoverTable"))
        (map (html_row name remote gitiles Fhtml) logs)
  | Fhtmlp =>
      mk_section refs (Some (Css "hoverTable"))
        (map (html_row_p name remote gitiles Fhtml Fhtmlp)
             (List.filter (matching pattern) logs))
  end.

End Expected.

(** The events of a section that has a table. *)
Definition view_events (s : section_view) : list doc_event :=
  match sec_table s with
  | Some arg => section_events (sec_label s) arg (sec_rows s)
  | None => [EvSection (sec_label s)]
  end.

(** The length of the text in column [k] of a row (0 where the row has
    no such column), and the largest over the rows of a section. *)
Definition cell_length (k : nat) (r : row) : nat :=
  match row_cells r !! k with
  | Some c => String.length (cell_text c)
  | None => 0%nat
  end.

Definition max_width (rows : list row) (k : nat) : nat :=
  foldr (fun r m => Nat.max (cell_length k r) m) 0%nat rows.


(** Effects that touch no document. *)
Definition quiet (e : effect) : Prop :=
  match e with Doc _ _ => False | _ => True end.

(** The call that opens the document [h]. *)
Definition open_event (name output : string) (h : handle) : doc_event :=
  match h with
  | Ftext => EvOpen (PyStr.path_join output REPORT_TEXT) name TEXT None
  | Ftextp => EvOpen (PyStr.path_join output FILTER_TEXT) name TEXT None
  | Fhtml =>
      EvOpen (PyStr.path_join output REPORT_HTML) name HTML (Some HTML_CSS)
  | Fhtmlp =>
      EvOpen (PyStr.path_join output FILTER_HTML) name HTML (Some HTML_CSS)
  end.

(** ** A sample repository *)

Module Demo.

Definition lines (l : list string) : string := String.concat nl l.

Definition sha_long : string := "0123456789abcdef0123456789abcdef01234567".

(** HEAD resolves to [e1]; [B] is known only as [origin/B]; the root
    ancestors of [e1] are given by [roots]; the ranges [r1..e1], [r2..e1]
    and [a0..b0] have commits, the log of any other range fails. *)
Definition project_with (roots : string) : GitProject := {|
  remote_name := "origin";
  rev_parse_fn := fun refs =>
    if String.eqb refs "HEAD" then (0, "e1")
    else if String.eqb refs "A" then (0, "a0")
    else if String.eqb refs "origin/B" then (0, "b0")
    else (128, "");
  rev_list_fn := fun _ _ => (0, roots);
  log_fn := fun fmt range =>
    if String.eqb fmt ("--format=" ++ dq ++ "%H") then
      if String.eqb range "r1..e1" then (0, lines [dq ++ "c1"; dq ++ "c2"])
      else if String.eqb range "r2..e1" then (0, lines [dq ++ "c3"])
      else if String.eqb range "a0..b0" then (0, lines [dq ++ sha_long])
      else (1, "")
    else if String.eqb fmt "--format=%ae" then (0, "alice@x.com" ++ nl)
    else if String.eqb fmt "--format=%ce" then
      (0, if String.eqb range "c2^..c2" then "bob@y.org" else "alice@x.com")
    else (0, "fix")
|}.

Definition two_roots : GitProject := project_with (lines ["r1"; "r2"]).
Definition one_root : GitProject := project_with "r1".
Definition three_roots : GitProject :=
  project_with (lines ["r1"; "r9"; "r2"]).

(** An invocation with the pattern matcher of [SpecPattern]. *)
Definition report (args : list string) (project : GitProject)
    (name : string) (format : option string)
    (patterns : option (list string)) (remote : option string)
    (gitiles : bool) (budget : option nat)
    : result (list CommitRecord) * world :=
  generate_report (P:=list SpecPattern.expr) args project name "out"
    format patterns remote gitiles (fun _ => true) (fresh budget).

(** The value and the final world of a run ([[]] when it raised). *)
Definition logs_of (x : result (list CommitRecord) * world)
    : list CommitRecord :=
  match fst x with Ok logs => logs | Raise _ => [] end.

Definition nth_section (h : handle) (w : world) (i : nat) : section_view :=
  default (mk_section "" None []) (sections_of h w !! i).

(** Both formats, the committer pattern [bob], two root ancestors. *)
Definition run_all : result (list CommitRecord) * world :=
  report [] two_roots "" (Some "all") (Some ["bob"]) None true None.

(** The same with three root ancestors, the log of the second failing. *)
Definition run_soft : result (list CommitRecord) * world :=
  report [] three_roots "" (Some "all") (Some ["bob"]) None true None.

(** Text only, one root ancestor, the fifth document call failing. *)
Definition run_failing : result (list CommitRecord) * world :=
  report [] one_root "" (Some "text") None None true (Some 4%nat).

End Demo.

(** ** Further readings of a run *)

(** Effects that only ask or tell: the console line and the git
    queries. *)
Definition is_query (e : effect) : Prop :=
  match e with
  | Console _ | GitRevParse _ | GitRevList _ _ | GitLog _ _ => True
  | _ => False
  end.

(** [pure_runs m v effs]: whatever the world, [m] returns [v] after
    performing exactly [effs]. *)
Definition pure_runs {A} (m : M A) (v : A) (effs : list effect) : Prop :=
  forall w, m w = (Ok v, emit effs w).

(** Tables entered and not yet left in the document [h]. *)
Fixpoint table_balance (h : handle) (tr : list effect) : Z :=
  match tr with
  | [] => 0
  | Doc h' (EvTable _) :: tr' =>
      (if decide (h' = h) then 1 else 0) + table_balance h tr'
  | Doc h' EvTableExit :: tr' =>
      (if decide (h' = h) then -1 else 0) + table_balance h tr'
  | _ :: tr' => table_balance h tr'
  end.

(** The exceptions [generate_report] lets through. *)
Definition report_exn (e : exn) : Prop :=
  match e with
  | RevisionError _ | IOError => True
  | _ => False
  end.

(** [keeps Q E m]: from any world, [m] appends to the trace effects that
    satisfy [Q], and raises only exceptions that satisfy [E]. *)
Definition keeps {A} (Q : list effect -> Prop) (E : exn -> Prop)
    (m : M A) : Prop :=
  forall w,
    (exists d, trace (snd (m w)) = (trace w ++ d)%list /\ Q d) /\
    (forall e, fst (m w) = Raise e -> E e).

(** The first and the last character of a string. *)
Definition first_char (s : string) : option ascii :=
  match s with
  | EmptyString => None
  | String a _ => Some a
  end.

Fixpoint last_char (s : string) : option ascii :=
  match s with
  | EmptyString => None
  | String a EmptyString => Some a
  | String _ s' => last_char s'
  end.

(** A string with no character of the set [p] at either end. *)
Definition trimmed (p : ascii -> bool) (s : string) : Prop :=
  (forall a, first_char s = Some a -> p a = false) /\
  (forall a, last_char s = Some a -> p a = false).

Definition is_dquote (a : ascii) : bool := Ascii.eqb a PyStr.dquote.

(** The sha1 cell of a row of report.html, as lines 231-253 build
    it for the three ways of linking. *)
Definition sha1_cell (name : string) (remote : option string)
    (gitiles : bool) (sha1 : string) : cell :=
  match remote with
  | Some r =>
      if PyStr.truthy r then
        if gitiles && PyStr.truthy name then
          Item Fhtml
            (Pair
               (Item Fhtml (Str (PyStr.slice_to 20 sha1))
                  (Some (r ++ "#/q/" ++ sha1)) None)
               (Item Fhtml (Str (PyStr.slice_from 20 sha1))
                  (Some (r ++ "/plugins/gitiles/" ++ name ++ "/+/"
                           ++ sha1 ++ "^!")) None))
            None (Some "pre")
        else
          Item Fhtml (Str sha1) (Some (r ++ "#/q/" ++ sha1)) (Some "pre")
      else Str sha1
  | None => Str sha1
  end.

(** A trace in which every table entered has been left. *)
Definition well_nested (d : list effect) : Prop :=
  forall h, table_balance h d = 0.

(** [safe m]: from any world, whatever the budget, [m] leaves every
    table it enters and raises only [RevisionError] or [IOError]. *)
Definition safe {A} (m : M A) : Prop := keeps well_nested report_exn m.

(** Effects other than entering or leaving a table. *)
Definition plain (e : effect) : Prop :=
  match e with
  | Doc _ (EvTable _) | Doc _ EvTableExit => False
  | _ => True
  end.

(** The look-ups and creations of directories, in order. *)
Fixpoint fs_effects (tr : list effect) : list effect :=
  match tr with
  | [] => []
  | PathExists p :: tr' => PathExists p :: fs_effects tr'
  | Makedirs p :: tr' => Makedirs p :: fs_effects tr'
  | _ :: tr' => fs_effects tr'
  end.

(** The committer a row shows: the text of its third cell. *)
Definition row_committer (rw : row) : string :=
  default "" (row_text rw !! 2%nat).

(** ** More sample runs *)

Module Sample.

(** A repository whose query for root ancestors fails. *)
Definition no_roots : GitProject := {|
  remote_name := "origin";
  rev_parse_fn := rev_parse_fn Demo.one_root;
  rev_list_fn := fun _ _ => (128, "");
  log_fn := log_fn Demo.one_root
|}.

(** The arguments of a run, but for the references, the project and the
    format: output [out], no name, the pattern [bob], no remote. *)
Definition report_in (args : list string) (project : GitProject)
    (format : option string) (os_path_exists : string -> bool)
    (budget : option nat) : result (list CommitRecord) * world :=
  generate_report (P:=list SpecPattern.expr) args project "" "out" format
    (Some ["bob"]) None true os_path_exists (fresh budget).

(** report.html with a remote, a name and gitiles. *)
Definition run_html : result (list CommitRecord) * world :=
  Demo.report ["A"; "B"] Demo.two_roots "myproj" (Some "html") None
    (Some "https://review.example.com") true None.

Definition first_row (h : handle) (w : world) : row :=
  default (mk_row [] None) (head (sec_rows (Demo.nth_section h w 0))).

Definition c1 : CommitRecord :=
  mk_record "c1" "alice@x.com" "alice@x.com" "fix".

End Sample.


(** ** Rows and closing order *)



(** Effects other than opening or closing a document. *)
Definition steady (e : effect) : Prop :=
  match e with
  | Doc _ (EvOpen _ _ _ _) | Doc _ EvClose => False
  | _ => True
  end.


(** * Properties *)

Local Open Scope list_scope.

(** ** The interpreter monad *)

Lemma emit_nil w : emit [] w = w.
Proof. destruct w; unfold emit; simpl. by rewrite app_nil_r. Qed.

Lemma emit_app e1 e2 w : emit e2 (emit e1 w) = emit (e1 ++ e2) w.
Proof. unfold emit; simpl. by rewrite app_assoc. Qed.

Lemma emit_budget effs w : io_budget (emit effs w) = io_budget w.
Proof. reflexivity. Qed.

Lemma runs_ret {A} (v : A) : runs (ret v) v [].
Proof. intros w _. unfold ret. by rewrite emit_nil. Qed.

Lemma runs_bind {A B} (m : M A) (f : A -> M B) a b e1 e2 :
  runs m a e1 -> runs (f a) b e2 -> runs (bind m f) b (e1 ++ e2).
Proof.
  intros Hm Hf w Hw. unfold bind. rewrite (Hm w Hw).
  rewrite (Hf (emit e1 w)) by done. by rewrite emit_app.
Qed.

Lemma runs_eq {A} (m : M A) v e e' : runs m v e -> e = e' -> runs m v e'.
Proof. by intros ? <-. Qed.

Lemma runs_perform e : runs (perform e) tt [e].
Proof. by intros w _. Qed.

Lemma runs_io e : runs (io e) tt [e].
Proof. intros w Hw. unfold io. by rewrite Hw. Qed.

Lemma runs_finally {A} (body : M A) v effs fin :
  runs body v effs -> runs (finally body fin) v (effs ++ [fin]).
Proof.
  intros Hb w Hw. unfold finally. rewrite (Hb w Hw). by rewrite emit_app.
Qed.

Lemma runs_for_each {A} (l : list A) (f : A -> M unit) (g : A -> list effect) :
  (forall x, runs (f x) tt (g x)) -> runs (for_each l f) tt (concat (map g l)).
Proof.
  intros Hf. induction l as [|x l IH]; simpl.
  - apply runs_ret.
  - eapply runs_bind; [apply Hf | apply IH].
Qed.

Lemma runs_with_table h arg (body : M unit) effs :
  runs body tt effs ->
  runs (with_table h arg body) tt (Doc h (EvTable arg) :: effs ++ [Doc h EvTableExit]).
Proof.
  intros Hb. unfold with_table.
  eapply runs_eq; [eapply runs_bind; [apply runs_io | by apply runs_finally] | done].
Qed.

(** The table of a section: one row for every element that passes
    [keep], between the two ends of the table. *)
Lemma runs_table_rows {A} h arg (l : list A) (keep : A -> bool)
    (mk : A -> row) (f : A -> M unit) :
  (forall x, f x = if keep x then write_row h (mk x) else ret tt) ->
  runs (with_table h arg (for_each l f)) tt
       (map (Doc h)
          (EvTable arg :: map EvRow (map mk (List.filter keep l)) ++ [EvTableExit])).
Proof.
  intros Hf.
  eapply runs_eq.
  - apply runs_with_table.
    apply (runs_for_each l f
             (fun x => if keep x then [Doc h (EvRow (mk x))] else [])).
    intros x. rewrite Hf. destruct (keep x).
    + unfold write_row, table_row. destruct (mk x). apply runs_io.
    + apply runs_ret.
  - simpl. f_equal. rewrite map_app. simpl. f_equal.
    induction l as [|x l IH]; simpl; [done|].
    destruct (keep x); simpl; by rewrite IH.
Qed.

Lemma runs_section_last {A} h label arg (l : list A) (keep : A -> bool)
    (mk : A -> row) (f : A -> M unit) :
  (forall x, f x = if keep x then write_row h (mk x) else ret tt) ->
  runs (section h label ;;; with_table h arg (for_each l f)) tt
       (section_effects h label arg (map mk (List.filter keep l))).
Proof.
  intros Hf. unfold section_effects, section_events.
  eapply runs_eq.
  - eapply runs_bind; [apply runs_io | by apply (runs_table_rows _ _ _ keep mk)].
  - done.
Qed.

Lemma runs_section_then {A B} h label arg (l : list A) (keep : A -> bool)
    (mk : A -> row) (f : A -> M unit) (k : M B) v effs :
  (forall x, f x = if keep x then write_row h (mk x) else ret tt) ->
  runs k v effs ->
  runs (section h label ;;; with_table h arg (for_each l f) ;;; k) v
       (section_effects h label arg (map mk (List.filter keep l)) ++ effs).
Proof.
  intros Hf Hk. unfold section_effects, section_events.
  eapply runs_eq.
  - eapply runs_bind; [apply runs_io|].
    eapply runs_bind; [by apply (runs_table_rows _ _ _ keep mk) | exact Hk].
  - done.
Qed.

(** ** Resolution and extraction *)

Section Run.

Context {P : Type} `{PatternClass P}.

Variables (args : list string) (project : GitProject)
          (name output : string) (format : option string)
          (patterns : option (list string))
          (remote : option string) (gitiles : bool)
          (os_path_exists : string -> bool).

Lemma secure_sha_run refs w :
  _secure_sha project project refs w =
  (match secure_value project refs with
   | Some v => Ok v
   | None => Raise (RevisionError ("Unknown " ++ refs)%string)
   end, emit (secure_effects project refs) w).
Proof.
  unfold _secure_sha, secure_value, secure_effects, rev_parse, bind,
    perform, ret, raise.
  destruct (rev_parse_fn project refs) as [rc sha1]; simpl.
  destruct (rc =? 0); [done|].
  rewrite emit_app.
  destruct (rev_parse_fn project _) as [rc' sha1']; simpl.
  by destruct (rc' =? 0).
Qed.

Lemma resolve_ranges_run w :
  resolve_ranges args project w =
  (resolve_value args project, emit (resolve_effects args project) w).
Proof.
  unfold resolve_ranges, resolve_value, resolve_effects.
  destruct (length args <? 2)%nat.
  - unfold bind at 1.
    assert (Hp : forall w,
      (if (length args =? 0)%nat
       then print "No SHA-1 provided, use HEAD by default" else ret tt) w =
      (Ok tt, emit (if (length args =? 0)%nat
           then [Console "No SHA-1 provided, use HEAD by default"] else []) w)).
    { intros w0. destruct (length args =? 0)%nat; [done|].
      unfold ret. by rewrite emit_nil. }
    rewrite Hp. unfold bind at 1. fold (first_ref args).
    rewrite secure_sha_run, emit_app.
    destruct (secure_value project (first_ref args)) as [erefs|].
    + unfold rev_list, perform, ret, bind. cbv beta iota. rewrite !emit_app.
      destruct (rev_list_fn project _ erefs) as [rc head].
      by rewrite <- !app_assoc.
    + by rewrite app_nil_r.
  - unfold bind at 1. rewrite secure_sha_run.
    destruct (secure_value project (default "" (args !! 1%nat))) as [erefs|].
    + unfold bind. rewrite secure_sha_run, emit_app.
      by destruct (secure_value project (default "" (args !! 0%nat))).
    + by rewrite app_nil_r.
Qed.

Lemma runs_log f r : runs (log project f r) (log_fn project f r) [GitLog f r].
Proof.
  unfold log. eapply runs_eq;
    [eapply runs_bind; [apply runs_perform | apply runs_ret] | done].
Qed.

Lemma runs_query_field sha1 it :
  runs (query_field project sha1 it) (field_value project sha1 it)
       [GitLog ("--format=" ++ it)%string (sha1 ++ "^.." ++ sha1)%string].
Proof.
  unfold query_field, field_value. eapply runs_eq;
    [eapply runs_bind; [apply runs_log | apply runs_ret] | done].
Qed.

Lemma runs_extract_commit line logs :
  runs (extract_commit project line logs)
       (logs ++ line_records project line) (line_effects line).
Proof.
  unfold extract_commit, line_records, line_effects.
  destruct (PyStr.truthy (PyStr.strip_quote line)); simpl.
  - eapply runs_eq.
    + eapply runs_bind; [apply runs_query_field|].
      eapply runs_bind; [apply runs_query_field|].
      eapply runs_bind; [apply runs_query_field|apply runs_ret].
    + done.
  - rewrite app_nil_r. apply runs_ret.
Qed.

Lemma runs_extract_commits lines logs :
  runs (extract_commits project lines logs)
       (logs ++ flat_map (line_records project) lines)
       (flat_map line_effects lines).
Proof.
  revert logs. induction lines as [|line lines IH]; intros logs; simpl.
  - rewrite app_nil_r. apply runs_ret.
  - rewrite app_assoc.
    eapply runs_bind; [apply runs_extract_commit | apply IH].
Qed.

Lemma runs_extract_range ref erefs logs :
  runs (extract_range project ref erefs logs)
       (logs ++ range_records project erefs ref)
       (range_effects project erefs ref).
Proof.
  intros w Hw.
  unfold extract_range, range_records, range_effects, hash_query, bind.
  rewrite (runs_log _ _ w Hw).
  destruct (log_fn project _ _) as [rc sha1s]; simpl.
  destruct (rc =? 0).
  - rewrite runs_extract_commits by done. by rewrite emit_app.
  - by rewrite app_nil_r.
Qed.

(** ** Rendering *)

Lemma filter_all {A} (l : list A) : List.filter (fun _ => true) l = l.
Proof. induction l; simpl; congruence. Qed.

Lemma runs_render_text (pattern : P) docs refs logs :
  runs (render_text pattern docs refs logs) tt
       (text_effects pattern docs refs logs).
Proof.
  unfold render_text, text_effects.
  destruct (ftext docs) as [ft|]; [|apply runs_ret].
  destruct (ftextp docs) as [ftp|].
  - eapply runs_eq.
    + apply (runs_section_then ft refs _ logs (fun _ => true) plain_row);
        [done|].
      apply (runs_section_last ftp refs _ logs (matching pattern) plain_row).
      intros r. unfold matching. by destruct (pattern_match _ _ _).
    + by rewrite filter_all.
  - eapply runs_eq.
    + apply (runs_section_then ft refs _ logs (fun _ => true) plain_row);
        [done|apply runs_ret].
    + by rewrite filter_all.
Qed.

Lemma runs_render_html (pattern : P) docs refs logs :
  runs (render_html name remote gitiles pattern docs refs logs) tt
       (html_effects name remote gitiles pattern docs refs logs).
Proof.
  unfold render_html, html_effects.
  destruct (fhtml docs) as [fh|]; [|apply runs_ret].
  destruct (fhtmlp docs) as [fhp|].
  - eapply runs_eq.
    + apply (runs_section_then fh refs _ logs (fun _ => true)
               (html_row name remote gitiles fh)); [done|].
      apply (runs_section_last fhp refs _ logs (matching pattern)
               (html_row_p name remote gitiles fh fhp)).
      intros r. unfold matching. by destruct (pattern_match _ _ _).
    + by rewrite filter_all.
  - eapply runs_eq.
    + apply (runs_section_then fh refs _ logs (fun _ => true)
               (html_row name remote gitiles fh)); [done|apply runs_ret].
    + by rewrite filter_all.
Qed.

Lemma runs_report_loop (pattern : P) docs erefs brefs todo logs :
  runs (report_loop args project name remote gitiles pattern docs erefs brefs todo logs)
       (all_records project erefs todo logs)
       (concat (map (iteration_effects args project name remote gitiles
                       pattern docs erefs brefs)
                    (iterations project erefs todo logs))).
Proof.
  revert logs. induction todo as [|ref todo IH]; intros logs.
  - unfold all_records. simpl. rewrite app_nil_r. apply runs_ret.
  - replace (all_records project erefs (ref :: todo) logs)
      with (all_records project erefs todo
              (logs ++ range_records project erefs ref))
      by (unfold all_records; simpl; by rewrite app_assoc).
    cbn [report_loop iterations map concat].
    unfold iteration_effects at 1. cbn [fst snd]. rewrite <- !app_assoc.
    eapply runs_bind; [apply runs_extract_range|].
    eapply runs_bind; [apply runs_render_text|].
    eapply runs_bind; [apply runs_render_html|].
    apply IH.
Qed.

Lemma runs_open_if {A} (c : bool) (m : M A) v effs :
  runs m v effs ->
  runs (open_if c m) (if c then Some v else None) (if c then effs else []).
Proof.
  intros Hm. destruct c; simpl; [|apply runs_ret].
  eapply runs_eq; [eapply runs_bind; [exact Hm | apply runs_ret]|].
  by rewrite app_nil_r.
Qed.

Lemma runs_open h p n f c : runs (FormattedFile_open h p n f c) h [Doc h (EvOpen p n f c)].
Proof.
  unfold FormattedFile_open.
  eapply runs_eq; [eapply runs_bind; [apply runs_io | apply runs_ret]|done].
Qed.

Lemma runs_open_documents (pattern : P) :
  runs (open_documents name output format os_path_exists pattern)
       (opened_documents format pattern)
       (open_effects name output format os_path_exists pattern).
Proof.
  unfold open_documents, opened_documents, open_effects.
  fold (want_text format) (want_html format).
  change (PathExists output :: ?l) with ([PathExists output] ++ l).
  rewrite app_assoc.
  eapply runs_bind.
  { destruct (os_path_exists output).
    - rewrite app_nil_r. apply runs_perform.
    - eapply runs_bind; [apply runs_perform | apply runs_io]. }
  eapply runs_bind; [apply runs_open_if, runs_open|].
  eapply runs_bind; [apply runs_open_if, runs_open|].
  eapply runs_bind; [apply runs_open_if, runs_open|].
  eapply runs_eq;
    [eapply runs_bind; [apply runs_open_if, runs_open|apply runs_ret]|].
  by rewrite app_nil_r.
Qed.

Lemma runs_close_documents docs :
  runs (close_documents docs) tt (close_effects docs).
Proof.
  unfold close_documents, close_effects, close_if, close.
  eapply runs_bind; [destruct (ftextp docs); [apply runs_io|apply runs_ret]|].
  eapply runs_bind; [destruct (fhtmlp docs); [apply runs_io|apply runs_ret]|].
  eapply runs_bind; [destruct (ftext docs); [apply runs_io|apply runs_ret]|].
  destruct (fhtml docs); [apply runs_io|apply runs_ret].
Qed.

(** The whole of [generate_report], on a run where no document or
    directory operation fails. *)
Lemma generate_report_run w :
  io_budget w = None ->
  generate_report args project name output format patterns remote gitiles
    os_path_exists w =
  match resolve_value args project with
  | Ok (erefs, brefs) =>
      (Ok (all_records project erefs brefs []),
       emit (resolve_effects args project ++
             report_effects (P:=P) args project name output format patterns
               remote gitiles os_path_exists erefs brefs) w)
  | Raise e => (Raise e, emit (resolve_effects args project) w)
  end.
Proof.
  intros Hw. unfold generate_report. unfold bind at 1.
  rewrite resolve_ranges_run.
  destruct (resolve_value args project) as [[erefs brefs]|e]; [|done].
  rewrite <- emit_app.
  assert (Hr : runs
    (docs <- open_documents name output format os_path_exists
               (build_pattern patterns) ;;
     logs <- report_loop args project name remote gitiles
               (build_pattern patterns) docs erefs brefs brefs [] ;;
     close_documents docs ;;; ret logs)
    (all_records project erefs brefs [])
    (report_effects (P:=P) args project name output format patterns
       remote gitiles os_path_exists erefs brefs)).
  { unfold report_effects.
    eapply runs_bind; [apply runs_open_documents|].
    eapply runs_bind; [apply runs_report_loop|].
    eapply runs_eq;
      [eapply runs_bind; [apply runs_close_documents|apply runs_ret]|].
    by rewrite app_nil_r. }
  by apply Hr.
Qed.

End Run.

(** ** Reading the trace of a run *)

Lemma doc_events_app h t1 t2 :
  doc_events h (t1 ++ t2) = doc_events h t1 ++ doc_events h t2.
Proof.
  induction t1 as [|e t1 IH]; simpl; [done|].
  destruct e; try done. destruct (decide (h0 = h)); simpl; by rewrite IH.
Qed.

Lemma doc_events_same h evs : doc_events h (map (Doc h) evs) = evs.
Proof.
  induction evs as [|e evs IH]; simpl; [done|].
  destruct (decide (h = h)); [by rewrite IH | done].
Qed.

Lemma doc_events_other h h' evs :
  h' <> h -> doc_events h (map (Doc h') evs) = [].
Proof.
  intros Hne. induction evs as [|e evs IH]; simpl; [done|].
  by destruct (decide (h' = h)).
Qed.

Lemma doc_events_concat h (ts : list (list effect)) :
  doc_events h (concat ts) = concat (map (doc_events h) ts).
Proof.
  induction ts as [|t ts IH]; simpl; [done|].
  by rewrite doc_events_app, IH.
Qed.

Lemma doc_events_quiet h t : Forall quiet t -> doc_events h t = [].
Proof.
  induction 1 as [|e t He _ IH]; simpl; [done|]. by destruct e.
Qed.

Lemma opened_quiet t : Forall quiet t -> opened_handles t = [].
Proof.
  induction 1 as [|e t He _ IH]; simpl; [done|]. by destruct e.
Qed.

Lemma closed_quiet t : Forall quiet t -> closed_handles t = [].
Proof.
  induction 1 as [|e t He _ IH]; simpl; [done|]. by destruct e.
Qed.

Lemma opened_app t1 t2 :
  opened_handles (t1 ++ t2) = opened_handles t1 ++ opened_handles t2.
Proof.
  induction t1 as [|e t1 IH]; simpl; [done|].
  destruct e; try done. destruct e; simpl; by rewrite ?IH.
Qed.

Lemma closed_app t1 t2 :
  closed_handles (t1 ++ t2) = closed_handles t1 ++ closed_handles t2.
Proof.
  induction t1 as [|e t1 IH]; simpl; [done|].
  destruct e; try done. destruct e; simpl; by rewrite ?IH.
Qed.

Lemma opened_section h label arg rows :
  opened_handles (section_effects h label arg rows) = [].
Proof.
  unfold section_effects, section_events. simpl.
  rewrite map_app, opened_app. simpl. rewrite app_nil_r.
  induction rows as [|r rows IH]; by simpl.
Qed.

Lemma closed_section h label arg rows :
  closed_handles (section_effects h label arg rows) = [].
Proof.
  unfold section_effects, section_events. simpl.
  rewrite map_app, closed_app. simpl. rewrite app_nil_r.
  induction rows as [|r rows IH]; by simpl.
Qed.

Lemma quiet_secure project refs : Forall quiet (secure_effects project refs).
Proof.
  unfold secure_effects. destruct (_ =? 0); repeat constructor.
Qed.

Lemma quiet_resolve args project : Forall quiet (resolve_effects args project).
Proof.
  unfold resolve_effects.
  destruct (length args <? 2)%nat.
  - repeat apply Forall_app_2; auto using quiet_secure.
    + destruct (length args =? 0)%nat; repeat constructor.
    + destruct (secure_value _ _); repeat constructor.
  - apply Forall_app_2; auto using quiet_secure.
    destruct (secure_value _ _); auto using quiet_secure.
Qed.

Lemma quiet_range project erefs ref : Forall quiet (range_effects project erefs ref).
Proof.
  unfold range_effects. constructor; [done|].
  destruct (_ =? 0); [|constructor].
  induction (PyStr.split _ _) as [|l ls IH]; simpl; [constructor|].
  apply Forall_app_2; [|done].
  unfold line_effects. destruct (PyStr.truthy _); repeat constructor.
Qed.

(** *** Sections *)

Lemma rows_of_rows rows rest :
  rows_of (map EvRow rows ++ rest) = rows ++ rows_of rest.
Proof. induction rows as [|r rows IH]; simpl; [done|]. by rewrite IH. Qed.

Lemma doc_sections_rows rows rest :
  doc_sections (map EvRow rows ++ rest) = doc_sections rest.
Proof. induction rows as [|r rows IH]; by simpl. Qed.

Lemma rows_of_views (vs : list section_view) tail :
  rows_of tail = [] -> rows_of (concat (map view_events vs) ++ tail) = [].
Proof.
  intros Ht. destruct vs as [|v vs]; simpl; [done|].
  unfold view_events. by destruct (sec_table v).
Qed.

(** A sequence of sections, each with its table, reads back as itself. *)
Lemma doc_sections_views (vs : list section_view) tail :
  Forall (fun v => is_Some (sec_table v)) vs ->
  rows_of tail = [] -> doc_sections tail = [] ->
  doc_sections (concat (map view_events vs) ++ tail) = vs.
Proof.
  intros Hvs Ht1 Ht2. induction Hvs as [|v vs [arg Hv] _ IH]; simpl; [done|].
  unfold view_events at 1. rewrite Hv. unfold section_events. simpl.
  rewrite <- !app_assoc. simpl.
  rewrite rows_of_rows, doc_sections_rows. simpl.
  rewrite rows_of_views by done. rewrite app_nil_r, IH.
  destruct v; simpl in *. by subst.
Qed.

Section Documents.

Context {P : Type} `{PatternClass P}.

Variables (args : list string) (project : GitProject)
          (name output : string) (format : option string)
          (patterns : option (list string))
          (remote : option string) (gitiles : bool)
          (os_path_exists : string -> bool).

Ltac by_handle :=
  repeat first
    [ rewrite doc_events_app
    | rewrite doc_events_same
    | rewrite doc_events_other by done
    | rewrite app_nil_r ];
  simpl; rewrite ?app_nil_r; try done.

Lemma doc_events_iteration (pattern : P) h erefs brefs it :
  doc_events h
    (iteration_effects args project name remote gitiles pattern
       (opened_documents format pattern) erefs brefs it) =
  if is_open format pattern h
  then view_events
         (section_at args name remote gitiles pattern h erefs brefs it)
  else [].
Proof.
  unfold iteration_effects, text_effects, html_effects, opened_documents,
    is_open, section_at, view_events, section_effects.
  cbn [ftext ftextp fhtml fhtmlp sec_table sec_label sec_rows].
  rewrite doc_events_app, (doc_events_quiet _ _ (quiet_range _ _ _)).
  cbn [app].
  destruct h, (want_text format), (want_html format), (pattern_bool pattern);
    cbn [andb]; by_handle.
Qed.

Lemma doc_events_open (pattern : P) h :
  doc_events h (open_effects name output format os_path_exists pattern) =
  if is_open format pattern h then [open_event name output h] else [].
Proof.
  unfold open_effects, is_open, open_event.
  destruct h, (os_path_exists output), (want_text format),
    (want_html format), (pattern_bool pattern); reflexivity.
Qed.

Lemma doc_events_close (pattern : P) h :
  doc_events h (close_effects (opened_documents format pattern)) =
  if is_open format pattern h then [EvClose] else [].
Proof.
  unfold close_effects, opened_documents, is_open.
  destruct h, (want_text format), (want_html format),
    (pattern_bool pattern); reflexivity.
Qed.

(** The events of one document over a whole run. *)
Lemma doc_events_report h erefs brefs :
  doc_events h
    (report_effects (P:=P) args project name output format patterns remote
       gitiles os_path_exists erefs brefs) =
  if is_open format (build_pattern (P:=P) patterns) h
  then open_event name output h ::
       concat (map view_events
                 (map (section_at args name remote gitiles
                         (build_pattern (P:=P) patterns) h erefs brefs)
                      (iterations project erefs brefs []))) ++ [EvClose]
  else [].
Proof.
  unfold report_effects.
  rewrite !doc_events_app, doc_events_open, doc_events_close,
    doc_events_concat, !map_map.
  rewrite (map_ext _ _ (fun it => doc_events_iteration _ h erefs brefs it)).
  destruct (is_open format (build_pattern patterns) h); simpl; [done|].
  induction (iterations _ _ _ _); by simpl.
Qed.

Lemma section_at_table (pattern : P) h erefs brefs it :
  is_Some (sec_table (section_at args name remote gitiles pattern h erefs brefs it)).
Proof. destruct h; simpl; eauto. Qed.

(** The sections of every document after a run without failure:
    one for each turn of the loop. *)
Lemma sections_of_report h erefs brefs w :
  trace w = resolve_effects args project ++
            report_effects (P:=P) args project name output format patterns
              remote gitiles os_path_exists erefs brefs ->
  sections_of h w =
  if is_open format (build_pattern (P:=P) patterns) h
  then map (section_at args name remote gitiles
              (build_pattern (P:=P) patterns) h erefs brefs)
           (iterations project erefs brefs [])
  else [].
Proof.
  intros Hw. unfold sections_of. rewrite Hw, doc_events_app.
  rewrite (doc_events_quiet _ _ (quiet_resolve _ _)), doc_events_report.
  destruct (is_open format (build_pattern patterns) h); [|done].
  assert (Ho : forall X, doc_sections (open_event name output h :: X) =
                         doc_sections X) by (by destruct h).
  cbn [app]. rewrite Ho. apply doc_sections_views; [|done|done].
  induction (iterations _ _ _ _); simpl; constructor;
    auto using section_at_table.
Qed.

(** A run from the fresh world, in one statement. *)
Lemma fresh_run :
  generate_report (P:=P) args project name output format patterns remote
    gitiles os_path_exists (fresh None) =
  match resolve_value args project with
  | Ok (erefs, brefs) =>
      (Ok (flat_map (range_records project erefs) brefs),
       mk_world (resolve_effects args project ++
                 report_effects (P:=P) args project name output format
                   patterns remote gitiles os_path_exists erefs brefs) None)
  | Raise e => (Raise e, mk_world (resolve_effects args project) None)
  end.
Proof.
  rewrite generate_report_run by done.
  by destruct (resolve_value args project) as [[erefs brefs]|e].
Qed.

End Documents.

(** ** Strings, sublists and widths *)

Lemma slice_join n s : (PyStr.slice_to n s ++ PyStr.slice_from n s)%string = s.
Proof.
  revert s. induction n as [|n IH]; intros s; [done|].
  destruct s as [|a s]; simpl; [done|].
  change (String a (PyStr.slice_to n s ++ PyStr.slice_from n s)%string
          = String a s).
  by rewrite IH.
Qed.

Lemma find_lower c s : -1 <= PyStr.find c s.
Proof.
  induction s as [|a s IH]; simpl; [lia|].
  destruct (Ascii.eqb a c); [lia|]. destruct (Z.ltb_spec (PyStr.find c s) 0); lia.
Qed.

Lemma find_absent c s : PyStr.contains c s = false -> PyStr.find c s = -1.
Proof.
  induction s as [|a s IH]; simpl; [done|].
  destruct (Ascii.eqb a c); simpl; [done|]. intros Hc. by rewrite IH.
Qed.

Lemma find_leading c s : PyStr.startswith c s = true -> PyStr.find c s = 0.
Proof. destruct s as [|a s]; simpl; [done|]. by intros ->. Qed.

Lemma find_inside c s :
  PyStr.contains c s = true -> PyStr.startswith c s = false ->
  0 < PyStr.find c s.
Proof.
  destruct s as [|a s]; simpl; [done|].
  intros Hc Hs. rewrite Hs in *. simpl in Hc.
  assert (PyStr.find c s <> -1).
  { clear Hs. induction s as [|b s IH]; simpl in *; [done|].
    destruct (Ascii.eqb b c); simpl in *; [done|].
    specialize (IH Hc). pose proof (find_lower c s).
    destruct (Z.ltb_spec (PyStr.find c s) 0); lia. }
  pose proof (find_lower c s).
  destruct (Z.ltb_spec (PyStr.find c s) 0); lia.
Qed.

Lemma split_single c s : PyStr.contains c s = false -> PyStr.split c s = [s].
Proof.
  induction s as [|a s IH]; simpl; [done|].
  destruct (Ascii.eqb a c); simpl; [done|]. intros Hc. by rewrite IH.
Qed.

Lemma sublist_filter_map {A B} (f : A -> B) (p : A -> bool) (l : list A) :
  sublist (map f (List.filter p l)) (map f l).
Proof.
  induction l as [|x l IH]; simpl; [constructor|].
  destruct (p x); simpl; by constructor.
Qed.

Lemma lookup_map {A B} (f : A -> B) (l : list A) i y :
  map f l !! i = Some y -> exists x, l !! i = Some x /\ y = f x.
Proof.
  revert i. induction l as [|x l IH]; intros [|i]; simpl; try done.
  - intros [= <-]. eauto.
  - apply IH.
Qed.

Lemma lookup_map_Some {A B} (f : A -> B) (l : list A) i x :
  l !! i = Some x -> map f l !! i = Some (f x).
Proof.
  revert i. induction l as [|x' l IH]; intros [|i]; simpl; try done.
  - by intros [= <-].
  - apply IH.
Qed.

Lemma max_width_sublist rows1 rows2 k :
  sublist rows1 rows2 -> (max_width rows1 k <= max_width rows2 k)%nat.
Proof. induction 1; simpl; lia. Qed.

Lemma update_column_fields a b c d r :
  update_column [a; b; c; d] (fields r) =
  [Nat.max a (String.length (rec_sha1 r));
   Nat.max b (String.length (rec_author r));
   Nat.max c (String.length (rec_committer r));
   Nat.max d (String.length (rec_subject r))]%nat.
Proof.
  unfold update_column, fields. simpl.
  destruct (Nat.ltb_spec a (String.length (rec_sha1 r))); simpl;
    destruct (Nat.ltb_spec b (String.length (rec_author r))); simpl;
    destruct (Nat.ltb_spec c (String.length (rec_committer r))); simpl;
    destruct (Nat.ltb_spec d (String.length (rec_subject r))); simpl;
    (f_equal; [lia|f_equal; [lia|f_equal; [lia|f_equal; lia]]]).
Qed.

Lemma fold_column a b c d logs :
  fold_left (fun column r => update_column column (fields r)) logs [a; b; c; d]%nat =
  [Nat.max a (max_width (map plain_row logs) 0);
   Nat.max b (max_width (map plain_row logs) 1);
   Nat.max c (max_width (map plain_row logs) 2);
   Nat.max d (max_width (map plain_row logs) 3)]%nat.
Proof.
  revert a b c d. induction logs as [|r logs IH]; intros a b c d; simpl.
  - by rewrite !Nat.max_0_r.
  - rewrite update_column_fields, IH. unfold cell_length. simpl.
    f_equal; [lia|]. f_equal; [lia|]. f_equal; [lia|]. f_equal; lia.
Qed.

(** The widths handed to the text table are the column maxima of [logs]. *)
Lemma compute_column_max logs :
  compute_column logs = map (max_width (map plain_row logs)) [0; 1; 2; 3]%nat.
Proof. unfold compute_column. by rewrite fold_column. Qed.

Lemma row_text_plain r : row_text (plain_row r) = fields r.
Proof. done. Qed.

Lemma row_text_html name remote gitiles fh r :
  row_text (html_row name remote gitiles fh r) = fields r.
Proof.
  unfold html_row, row_text, fields, mailto, item.
  destruct (negb (remote_truthy remote)); [done|].
  destruct (gitiles && PyStr.truthy name);
    cbn [row_cells map cell_text]; by rewrite ?slice_join.
Qed.

Lemma row_text_html_p name remote gitiles fh fhp r :
  row_text (html_row_p name remote gitiles fh fhp r) = fields r.
Proof.
  unfold html_row_p, row_text, fields, mailto, item.
  destruct (negb (remote_truthy remote)); [done|].
  destruct (gitiles && PyStr.truthy name);
    cbn [row_cells map cell_text]; by rewrite ?slice_join.
Qed.

(** * The specification, statement by statement *)

(** ** Revision resolution *)

(** C3. [_secure_sha] first resolves [refs] directly; when the status is 0
    the sha1 is returned and [rev_parse] has been called once only; when
    it is not, [rev_parse] is called again with [<remote>/<refs>]; and
    [RevisionError] is raised exactly when both statuses are nonzero. *)
Theorem secure_sha_fallback (project gitp : GitProject) (refs : string)
    (w : world) :
  let direct := rev_parse_fn gitp refs in
  let qualified :=
    rev_parse_fn gitp (remote_name project ++ "/" ++ refs)%string in
  let both :=
    [GitRevParse refs;
     GitRevParse (remote_name project ++ "/" ++ refs)%string] in
  _secure_sha project gitp refs w =
    (if fst direct =? 0
     then (Ok (snd direct), emit [GitRevParse refs] w)
     else if fst qualified =? 0
          then (Ok (snd qualified), emit both w)
          else (Raise (RevisionError ("Unknown " ++ refs)%string),
                emit both w))
  /\ ((exists e w', _secure_sha project gitp refs w = (Raise e, w')) <->
      (fst direct <> 0 /\ fst qualified <> 0)).
Proof.
  cbv zeta.
  assert (Hrun : _secure_sha project gitp refs w =
    (if fst (rev_parse_fn gitp refs) =? 0
     then (Ok (snd (rev_parse_fn gitp refs)), emit [GitRevParse refs] w)
     else if fst (rev_parse_fn gitp
                    (remote_name project ++ "/" ++ refs)%string) =? 0
          then (Ok (snd (rev_parse_fn gitp
                           (remote_name project ++ "/" ++ refs)%string)),
                emit [GitRevParse refs;
                      GitRevParse (remote_name project ++ "/" ++ refs)%string] w)
          else (Raise (RevisionError ("Unknown " ++ refs)%string),
                emit [GitRevParse refs;
                      GitRevParse (remote_name project ++ "/" ++ refs)%string] w))).
  { unfold _secure_sha, rev_parse, perform, ret, raise, bind. cbv beta iota.
    destruct (rev_parse_fn gitp refs) as [rc sha1]; simpl.
    destruct (rc =? 0); [done|]. rewrite emit_app.
    destruct (rev_parse_fn gitp _) as [rc' sha1']; simpl.
    by destruct (rc' =? 0). }
  split; [exact Hrun|]. rewrite Hrun.
  destruct (Z.eqb_spec (fst (rev_parse_fn gitp refs)) 0) as [Hd|Hd].
  - split; [intros (e & w' & [=]) | intros [? _]; done].
  - destruct (Z.eqb_spec
      (fst (rev_parse_fn gitp (remote_name project ++ "/" ++ refs)%string)) 0)
      as [Hq|Hq].
    + split; [intros (e & w' & [=]) | intros [_ ?]; done].
    + split; [done | eauto].
Qed.

(** ** Patterns *)

(** C4, as the code has it.  [build_pattern] keeps a raw token verbatim
    when it contains [:] after its first character, and rewrites every
    other token (without [:], or starting with [:]) to [email:<token>];
    so building from a token without [:] and from [email:<token>] give the
    same pattern. *)
Theorem build_pattern_tokens {P : Type} `{PatternClass P} (tok : string)
    (toks : list string) :
  (PyStr.contains ":" tok = true -> PyStr.startswith ":" tok = false ->
   build_token tok = tok) /\
  (PyStr.contains ":" tok = false -> build_token tok = ("email:" ++ tok)%string) /\
  (PyStr.startswith ":" tok = true -> build_token tok = ("email:" ++ tok)%string) /\
  build_pattern (P:=P) (Some (tok :: toks)) =
    Pattern (Some (map build_token (tok :: toks))) /\
  (PyStr.contains ":" tok = false ->
   build_pattern (P:=P) (Some [tok]) =
   build_pattern (P:=P) (Some ["email:" ++ tok]%string)).
Proof.
  assert (He : build_token ("email:" ++ tok) = ("email:" ++ tok)%string)
    by done.
  repeat split.
  - intros Hc Hs. unfold build_token.
    pose proof (find_inside _ _ Hc Hs).
    by destruct (Z.ltb_spec 0 (PyStr.find ":" tok)); [|lia].
  - intros Hc. unfold build_token. by rewrite (find_absent _ _ Hc).
  - intros Hs. unfold build_token. by rewrite (find_leading _ _ Hs).
  - intros Hc. unfold build_pattern, build_pats. cbn [map].
    rewrite He. unfold build_token at 1. by rewrite (find_absent _ _ Hc).
Qed.

Lemma build_pattern_tokens_witness :
  build_token "name:bob" = "name:bob" /\
  build_token "alice@x.com" = "email:alice@x.com" /\
  build_token ":bob" = "email::bob" /\
  build_pattern (P:=list SpecPattern.expr) (Some ["alice@x.com"]) =
  build_pattern (P:=list SpecPattern.expr) (Some ["email:alice@x.com"]).
Proof.
  pose proof (build_pattern_tokens (P:=list SpecPattern.expr) "name:bob" [])
    as (H1 & _).
  pose proof (build_pattern_tokens (P:=list SpecPattern.expr) "alice@x.com" [])
    as (_ & H2 & _ & _ & H5).
  pose proof (build_pattern_tokens (P:=list SpecPattern.expr) ":bob" [])
    as (_ & _ & H3 & _).
  split; [apply H1; reflexivity|].
  split; [apply H2; reflexivity|].
  split; [apply H3; reflexivity|].
  apply H5; reflexivity.
Defined.

(** C4, as stated, fails: the token [:bob] contains [:] and is not kept
    verbatim. *)
Lemma build_pattern_leading_colon :
  PyStr.contains ":" ":bob" = true /\
  build_pats [":bob"] = ["email::bob"] /\
  build_pats [":bob"] <> [":bob"].
Proof. repeat split; done. Qed.

(** ** The remote location *)

(** C9.  With [--remote https://review.example.com/myproj], [execute]
    stops at the lookup of [urlparse.urlparse]: the name is bound to the
    function, the lookup raises [AttributeError], and neither the project
    name nor the remote is computed; no report is generated. *)
Theorem execute_remote_raises {P : Type} `{PatternClass P}
    (urlparse_fn : string -> ParseResult) (project : GitProject)
    (os_path_exists : string -> bool) (args : list string) (w : world) :
  execute (P:=P) urlparse_fn
    (mk_options (Some "https://review.example.com/myproj") (Some "out")
                true (Some "html") None)
    project os_path_exists args w =
  (Raise (AttributeError "'function' object has no attribute 'urlparse'"), w).
Proof. reflexivity. Qed.

(** ** Sections and ranges *)

(** C1.  With no argument and two root ancestors [r1] and [r2] of HEAD,
    the section of the second range holds the records of the first range
    as well: [logs] is not emptied between two ranges. *)
Theorem sections_accumulate :
  let c := fun sha1 committer =>
    mk_record sha1 "alice@x.com" committer "fix" in
  let w := snd (Demo.report [] Demo.two_roots "" (Some "text") None None
                  true None) in
  range_records Demo.two_roots "e1" "r1" =
    [c "c1" "alice@x.com"; c "c2" "bob@y.org"] /\
  range_records Demo.two_roots "e1" "r2" = [c "c3" "alice@x.com"] /\
  map sec_rows (sections_of Ftext w) =
    [map plain_row [c "c1" "alice@x.com"; c "c2" "bob@y.org"];
     map plain_row [c "c1" "alice@x.com"; c "c2" "bob@y.org";
                    c "c3" "alice@x.com"]].
Proof. vm_compute. done. Qed.

(** C2.  With a remote, a project name and gitiles, the sha1 cell of
    report.html links its first 20 characters to [<remote>#/q/<sha1>],
    and the sha1 cell of filter.html links them to [<remote>#q,<sha1>]. *)
Theorem filtered_html_query_link :
  let w := snd (Demo.report ["A"; "B"] Demo.two_roots "myproj" (Some "html")
                  (Some ["alice"]) (Some "https://review.example.com")
                  true None) in
  let sha1_cell := fun h =>
    s ← head (sections_of h w); r ← head (sec_rows s); head (row_cells r) in
  let gitiles_link :=
    ("https://review.example.com/plugins/gitiles/myproj/+/"
       ++ Demo.sha_long ++ "^!")%string in
  sha1_cell Fhtml =
    Some (Item Fhtml
            (Pair
               (Item Fhtml (Str "0123456789abcdef0123")
                  (Some ("https://review.example.com#/q/" ++ Demo.sha_long)%string)
                  None)
               (Item Fhtml (Str "456789abcdef01234567")
                  (Some gitiles_link) None))
            None (Some "pre")) /\
  sha1_cell Fhtmlp =
    Some (Item Fhtmlp
            (Pair
               (Item Fhtmlp (Str "0123456789abcdef0123")
                  (Some ("https://review.example.com#q," ++ Demo.sha_long)%string)
                  None)
               (Item Fhtmlp (Str "456789abcdef01234567")
                  (Some gitiles_link) None))
            None (Some "pre")).
Proof. vm_compute. done. Qed.

(** ** Filtered documents *)

Section Report.

Context {P : Type} `{PatternClass P}.

Variables (args : list string) (project : GitProject)
          (name output : string) (format : option string)
          (patterns : option (list string))
          (remote : option string) (gitiles : bool)
          (os_path_exists : string -> bool).

Local Abbreviation run :=
  (generate_report (P:=P) args project name output format patterns remote
     gitiles os_path_exists).

Local Abbreviation pattern := (build_pattern (P:=P) patterns).

(** A run that completes did resolve its ranges, and its documents
    hold the expected sections. *)
Lemma completed_run logs w' :
  run (fresh None) = (Ok logs, w') ->
  exists erefs brefs,
    resolve_value args project = Ok (erefs, brefs) /\
    logs = flat_map (range_records project erefs) brefs /\
    io_budget w' = None /\
    trace w' = resolve_effects args project ++
               report_effects (P:=P) args project name output format
                 patterns remote gitiles os_path_exists erefs brefs /\
    forall h,
      sections_of h w' =
      if is_open format pattern h
      then map (section_at args name remote gitiles pattern h erefs brefs)
               (iterations project erefs brefs [])
      else [].
Proof.
  rewrite fresh_run.
  destruct (resolve_value args project) as [[erefs brefs]|e]; [|done].
  intros [= <- <-]. exists erefs, brefs. repeat split; try done.
  intros h.
  by apply (sections_of_report args project name output format patterns
              remote gitiles os_path_exists).
Qed.

(** C5.  After a run, the i-th section of filter.txt has the label of
    the i-th section of report.txt and its rows are a subsequence of
    that section's rows; the same holds of filter.html and report.html
    for the text the rows show (sha1, author, committer, subject). *)
Theorem filtered_rows_subsequence logs w' i sf :
  run (fresh None) = (Ok logs, w') ->
  (sections_of Ftextp w' !! i = Some sf ->
   exists s, sections_of Ftext w' !! i = Some s /\
             sec_label sf = sec_label s /\
             sublist (sec_rows sf) (sec_rows s)) /\
  (sections_of Fhtmlp w' !! i = Some sf ->
   exists s, sections_of Fhtml w' !! i = Some s /\
             sec_label sf = sec_label s /\
             sublist (map row_text (sec_rows sf))
                     (map row_text (sec_rows s))).
Proof.
  intros Hrun.
  destruct (completed_run _ _ Hrun) as (erefs & brefs & _ & _ & _ & _ & Hs).
  rewrite !Hs. cbn [is_open]. split.
  - destruct (want_text format); [|done].
    destruct (pattern_bool pattern); [|done]. cbn [andb].
    intros (it & Hit & ->)%lookup_map.
    eexists. split; [by apply lookup_map_Some|].
    split; [done|]. apply sublist_filter_map.
  - destruct (want_html format); [|done].
    destruct (pattern_bool pattern); [|done]. cbn [andb].
    intros (it & Hit & ->)%lookup_map.
    eexists. split; [by apply lookup_map_Some|].
    split; [done|]. cbn [section_at sec_rows]. rewrite !map_map.
    rewrite (map_ext _ fields
               (row_text_html_p name remote gitiles Fhtml Fhtmlp)).
    rewrite (map_ext _ fields (row_text_html name remote gitiles Fhtml)).
    apply sublist_filter_map.
Qed.

(** ** Column widths *)

(** C8, as the code has it.  Every section of report.txt gets, for each
    of its four columns, the largest text length over the rows written
    to that section; the section of filter.txt gets the same four
    widths, so each is at least the largest length among its own
    rows. *)
Theorem text_widths logs w' i :
  run (fresh None) = (Ok logs, w') ->
  (forall s, sections_of Ftext w' !! i = Some s ->
     sec_table s =
     Some (Widths (map (max_width (sec_rows s)) [0; 1; 2; 3]%nat))) /\
  (forall sf, sections_of Ftextp w' !! i = Some sf ->
     exists s, sections_of Ftext w' !! i = Some s /\
               sec_table sf = sec_table s /\
               forall k, (max_width (sec_rows sf) k
                          <= max_width (sec_rows s) k)%nat).
Proof.
  intros Hrun.
  destruct (completed_run _ _ Hrun) as (erefs & brefs & _ & _ & _ & _ & Hs).
  rewrite !Hs. cbn [is_open]. split.
  - intros s. destruct (want_text format); [|done].
    intros (it & Hit & ->)%lookup_map.
    cbn [section_at sec_table sec_rows]. by rewrite compute_column_max.
  - intros sf. destruct (want_text format); [|done].
    destruct (pattern_bool pattern); [|done]. cbn [andb].
    intros (it & Hit & ->)%lookup_map.
    eexists. split; [by apply lookup_map_Some|].
    split; [done|]. intros k. apply max_width_sublist.
    apply sublist_filter_map.
Qed.


(** ** Soft failure of a range *)

Lemma iterations_length erefs todo logs0 :
  length (iterations project erefs todo logs0) = length todo.
Proof.
  revert logs0. induction todo as [|r todo IH]; intros logs0; simpl;
    [done|]. by rewrite IH.
Qed.

(** C7.  When the hash-list query of the range of [ref] returns a
    nonzero status, extracting that range leaves [logs] as it was and
    raises nothing; the run completes, it returns the records of the
    other ranges, and every open document has one section for each
    range, the failed one included. *)
Theorem soft_fail_range erefs pre ref post :
  resolve_value args project = Ok (erefs, pre ++ ref :: post) ->
  fst (hash_query project ref erefs) <> 0 ->
  (forall logs w, io_budget w = None ->
     extract_range project ref erefs logs w =
     (Ok logs,
      emit [GitLog ("--format=" ++ dq ++ "%H")%string
                   (ref ++ ".." ++ erefs)%string] w)) /\
  exists w',
    run (fresh None) =
      (Ok (flat_map (range_records project erefs) pre ++
           flat_map (range_records project erefs) post), w') /\
    forall h, is_open format pattern h = true ->
      length (sections_of h w') = (length pre + 1 + length post)%nat.
Proof.
  intros Hres Hrc.
  assert (Hnone : range_records project erefs ref = []).
  { unfold range_records. by destruct (Z.eqb_spec (fst (hash_query project ref erefs)) 0). }
  split.
  - intros logs w Hw. rewrite (runs_extract_range project ref erefs logs w Hw).
    rewrite Hnone, app_nil_r. unfold range_effects.
    by destruct (Z.eqb_spec (fst (hash_query project ref erefs)) 0).
  - eexists. split.
    + rewrite fresh_run, Hres. rewrite flat_map_app. simpl.
      by rewrite Hnone.
    + intros h Hh.
      rewrite (sections_of_report args project name output format patterns
                 remote gitiles os_path_exists h erefs (pre ++ ref :: post))
        by done.
      rewrite Hh, length_map, iterations_length, length_app. simpl. lia.
Qed.

(** ** Closing the documents *)

Lemma opened_iterations (docs : documents) erefs brefs its :
  opened_handles
    (concat (map (iteration_effects args project name remote gitiles
                    pattern docs erefs brefs) its)) = [].
Proof.
  induction its as [|it its IH]; cbn [map concat]; [done|].
  rewrite opened_app, IH, app_nil_r.
  unfold iteration_effects, text_effects, html_effects.
  rewrite (opened_app (range_effects _ _ _)),
    (opened_quiet _ (quiet_range _ _ _)), opened_app.
  destruct (ftext docs), (ftextp docs), (fhtml docs), (fhtmlp docs);
    by rewrite ?opened_app, ?opened_section.
Qed.

Lemma closed_iterations (docs : documents) erefs brefs its :
  closed_handles
    (concat (map (iteration_effects args project name remote gitiles
                    pattern docs erefs brefs) its)) = [].
Proof.
  induction its as [|it its IH]; cbn [map concat]; [done|].
  rewrite closed_app, IH, app_nil_r.
  unfold iteration_effects, text_effects, html_effects.
  rewrite (closed_app (range_effects _ _ _)),
    (closed_quiet _ (quiet_range _ _ _)), closed_app.
  destruct (ftext docs), (ftextp docs), (fhtml docs), (fhtmlp docs);
    by rewrite ?closed_app, ?closed_section.
Qed.

End Report.

(** ** The invocation without reference *)

(** C6.  Without argument, when HEAD resolves to [h] and [h] has the one
    root ancestor [R]: the run prints the notice first and then resolves
    HEAD; the end reference is [h] and the begin references are [[R]];
    the records are those of [R..h]; and the one section of every open
    document is labelled [h], the resolved HEAD. *)
Theorem zero_reference_report {P : Type} `{PatternClass P}
    (project : GitProject) (name output : string) (format : option string)
    (patterns : option (list string)) (remote : option string)
    (gitiles : bool) (os_path_exists : string -> bool) (h R : string) :
  secure_value project "HEAD" = Some h ->
  rev_list_fn project "--max-parents=0" h = (0, R) ->
  PyStr.contains PyStr.newline R = false ->
  resolve_value [] project = Ok (h, [R]) /\
  exists w',
    generate_report (P:=P) [] project name output format patterns remote
      gitiles os_path_exists (fresh None) =
      (Ok (range_records project h R), w') /\
    take 2 (trace w') =
      [Console "No SHA-1 provided, use HEAD by default";
       GitRevParse "HEAD"] /\
    forall d, is_open format (build_pattern (P:=P) patterns) d = true ->
      map sec_label (sections_of d w') = [h].
Proof.
  intros Hh Hr Hnl.
  assert (Hres : resolve_value [] project = Ok (h, [R])).
  { unfold resolve_value, first_ref. cbn [length Nat.ltb Nat.leb].
    by rewrite Hh, Hr, (split_single _ _ Hnl). }
  split; [done|]. eexists. split; [|split].
  - rewrite fresh_run, Hres. simpl. by rewrite app_nil_r.
  - cbn [trace]. unfold resolve_effects, first_ref, secure_effects.
    cbn [length Nat.ltb Nat.leb Nat.eqb].
    by destruct (fst (rev_parse_fn project "HEAD") =? 0).
  - intros d Hd.
    rewrite (sections_of_report [] project name output format patterns
               remote gitiles os_path_exists d h [R]) by done.
    rewrite Hd. by destruct d.
Qed.

(** With two references there is one range: every open document has one
    section, labelled [a..b], made from the records of that range. *)
Lemma two_reference_section {P : Type} `{PatternClass P}
    (project : GitProject) (name output : string) (format : option string)
    (patterns : option (list string)) (remote : option string)
    (gitiles : bool) (os_path_exists : string -> bool) (A B a b : string) :
  secure_value project B = Some b ->
  secure_value project A = Some a ->
  exists w',
    generate_report (P:=P) [A; B] project name output format patterns remote
      gitiles os_path_exists (fresh None) =
      (Ok (range_records project b a), w') /\
    forall d, is_open format (build_pattern (P:=P) patterns) d = true ->
      map sec_label (sections_of d w') = [(a ++ ".." ++ b)%string] /\
      (sections_of Ftext w' = [] \/
       map sec_rows (sections_of Ftext w') =
         [map plain_row (range_records project b a)]).
Proof.
  intros Hb Ha.
  assert (Hres : resolve_value [A; B] project = Ok (b, [a])).
  { unfold resolve_value. cbn [length Nat.ltb Nat.leb lookup list_lookup default].
    simpl. by rewrite Hb, Ha. }
  eexists. split.
  - rewrite fresh_run, Hres. simpl. by rewrite app_nil_r.
  - intros d Hd.
    rewrite !(sections_of_report [A; B] project name output format patterns
                remote gitiles os_path_exists _ b [a]) by done.
    rewrite Hd. split; [by destruct d|].
    destruct (is_open format (build_pattern patterns) Ftext); [right|by left].
    done.
Qed.

(** ** The statements on the sample repository *)

Lemma secure_sha_fallback_witness :
  _secure_sha Demo.two_roots Demo.two_roots "B" (fresh None) =
    (Ok "b0", mk_world [GitRevParse "B"; GitRevParse "origin/B"] None) /\
  _secure_sha Demo.two_roots Demo.two_roots "A" (fresh None) =
    (Ok "a0", mk_world [GitRevParse "A"] None) /\
  exists e w',
    _secure_sha Demo.two_roots Demo.two_roots "C" (fresh None) = (Raise e, w').
Proof.
  split; [|split].
  - exact (proj1 (secure_sha_fallback Demo.two_roots Demo.two_roots "B"
                    (fresh None))).
  - exact (proj1 (secure_sha_fallback Demo.two_roots Demo.two_roots "A"
                    (fresh None))).
  - apply (proj2 (secure_sha_fallback Demo.two_roots Demo.two_roots "C"
                    (fresh None))).
    split; vm_compute; discriminate.
Defined.

Lemma filtered_rows_subsequence_witness :
  exists s,
    sections_of Ftext (snd Demo.run_all) !! 1%nat = Some s /\
    sec_label (Demo.nth_section Ftextp (snd Demo.run_all) 1) = sec_label s /\
    sublist (sec_rows (Demo.nth_section Ftextp (snd Demo.run_all) 1))
            (sec_rows s).
Proof.
  assert (Hrun : generate_report (P:=list SpecPattern.expr) [] Demo.two_roots
                   "" "out" (Some "all") (Some ["bob"]) None true
                   (fun _ => true) (fresh None) =
                 (Ok (Demo.logs_of Demo.run_all), snd Demo.run_all))
    by (vm_compute; reflexivity).
  destruct (filtered_rows_subsequence _ _ _ _ _ _ _ _ _ _ _ 1%nat
              (Demo.nth_section Ftextp (snd Demo.run_all) 1) Hrun)
    as [Htext _].
  apply Htext. vm_compute; reflexivity.
Defined.

Lemma text_widths_witness :
  sec_table (Demo.nth_section Ftext (snd Demo.run_all) 1) =
  Some (Widths
          (map (max_width
                  (sec_rows (Demo.nth_section Ftext (snd Demo.run_all) 1)))
               [0; 1; 2; 3]%nat)).
Proof.
  assert (Hrun : generate_report (P:=list SpecPattern.expr) [] Demo.two_roots
                   "" "out" (Some "all") (Some ["bob"]) None true
                   (fun _ => true) (fresh None) =
                 (Ok (Demo.logs_of Demo.run_all), snd Demo.run_all))
    by (vm_compute; reflexivity).
  destruct (text_widths _ _ _ _ _ _ _ _ _ _ _ 1%nat Hrun) as [Hfull _].
  apply Hfull. vm_compute; reflexivity.
Defined.

(** C8, as stated, fails on filter.txt: its section is given the widths
    of the section of report.txt, here 11 for the committer column whose
    only row shows [bob@y.org]. *)
Lemma filtered_text_widths_differ :
  let s := Demo.nth_section Ftextp (snd Demo.run_all) 0 in
  sections_of Ftextp (snd Demo.run_all) !! 0%nat = Some s /\
  map row_text (sec_rows s) = [["c2"; "alice@x.com"; "bob@y.org"; "fix"]] /\
  sec_table s = Some (Widths [2; 11; 11; 3]%nat) /\
  map (max_width (sec_rows s)) [0; 1; 2; 3]%nat = [2; 11; 9; 3]%nat.
Proof. vm_compute. done. Qed.

Lemma soft_fail_range_witness :
  exists w',
    Demo.run_soft =
      (Ok (range_records Demo.three_roots "e1" "r1" ++
           range_records Demo.three_roots "e1" "r2"), w') /\
    length (sections_of Ftext w') = 3%nat.
Proof.
  destruct (soft_fail_range (P:=list SpecPattern.expr) [] Demo.three_roots ""
              "out" (Some "all") (Some ["bob"]) None true (fun _ => true)
              "e1" ["r1"] "r9" ["r2"])
    as [_ (w' & Hrun & Hsec)].
  - vm_compute; reflexivity.
  - vm_compute; discriminate.
  - exists w'. split.
    + unfold Demo.run_soft, Demo.report. rewrite Hrun. reflexivity.
    + apply (Hsec Ftext). reflexivity.
Defined.

Lemma zero_reference_report_witness :
  exists w',
    Demo.report [] Demo.one_root "" (Some "all") None None true None =
      (Ok (range_records Demo.one_root "e1" "r1"), w') /\
    take 2 (trace w') =
      [Console "No SHA-1 provided, use HEAD by default";
       GitRevParse "HEAD"] /\
    map sec_label (sections_of Ftext w') = ["e1"].
Proof.
  destruct (zero_reference_report (P:=list SpecPattern.expr) Demo.one_root ""
              "out" (Some "all") None None true (fun _ => true) "e1" "r1")
    as [_ (w' & Hrun & Htake & Hlabel)]; try reflexivity.
  exists w'. split; [exact Hrun|]. split; [exact Htake|].
  apply (Hlabel Ftext). reflexivity.
Defined.

(** C10, as stated, fails: when the second row of report.txt cannot be
    written, the error leaves [generate_report] with report.txt opened
    and never closed. *)
Lemma documents_left_open_on_failure :
  fst Demo.run_failing = Raise IOError /\
  opened_handles (trace (snd Demo.run_failing)) = [Ftext] /\
  closed_handles (trace (snd Demo.run_failing)) = [] /\
  doc_events Ftext (trace (snd Demo.run_failing)) =
    [EvOpen "out/report.txt" "" TEXT None;
     EvSection "e1";
     EvTable (Widths [2; 11; 11; 3]%nat);
     EvRow (mk_row [Str "c1"; Str "alice@x.com"; Str "alice@x.com";
                    Str "fix"] None);
     EvTableExit].
Proof. vm_compute. done. Qed.

(** * Further properties of the code *)

(** ** Arguments *)

Lemma bind_ext {A B} (m : M A) (f g : A -> M B) w :
  (forall a w', f a w' = g a w') -> bind m f w = bind m g w.
Proof. intros Hfg. unfold bind. destruct (m w) as [[a|e] w']; auto. Qed.

Section Arguments.

Context {P : Type} `{PatternClass P}.

Variables (project : GitProject) (name output : string)
          (format : option string) (patterns : option (list string))
          (remote : option string) (gitiles : bool)
          (os_path_exists : string -> bool).

Lemma report_loop_ext args1 args2 (pattern : P) docs erefs brefs todo logs w :
  (1 <? length args1)%nat = (1 <? length args2)%nat ->
  report_loop args1 project name remote gitiles pattern docs erefs brefs
    todo logs w =
  report_loop args2 project name remote gitiles pattern docs erefs brefs
    todo logs w.
Proof.
  intros Hl. revert logs w.
  induction todo as [|ref todo IH]; intros logs w; [done|].
  cbn [report_loop]. unfold section_label. rewrite Hl.
  apply bind_ext. intros logs' w1.
  apply bind_ext. intros _ w2.
  apply bind_ext. intros _ w3. apply IH.
Qed.

(** X1.  References after the second are ignored. *)
Theorem extra_arguments_ignored (A B : string) (rest : list string) w :
  generate_report (P:=P) (A :: B :: rest) project name output format
    patterns remote gitiles os_path_exists w =
  generate_report (P:=P) [A; B] project name output format patterns remote
    gitiles os_path_exists w.
Proof.
  unfold generate_report.
  change (resolve_ranges (A :: B :: rest) project)
    with (resolve_ranges [A; B] project).
  apply bind_ext. intros [erefs brefs] w1.
  apply bind_ext. intros docs w2.
  unfold bind at 1 3.
  by rewrite (report_loop_ext (A :: B :: rest) [A; B]).
Qed.

(** X2.  Without reference the run is the run for the reference [HEAD],
    once the notice is printed. *)
Theorem no_argument_is_head w :
  generate_report (P:=P) [] project name output format patterns remote
    gitiles os_path_exists w =
  generate_report (P:=P) ["HEAD"] project name output format patterns
    remote gitiles os_path_exists
    (emit [Console "No SHA-1 provided, use HEAD by default"] w).
Proof.
  unfold generate_report.
  assert (Hres : resolve_ranges [] project w =
                 resolve_ranges ["HEAD"] project
                   (emit [Console "No SHA-1 provided, use HEAD by default"] w))
    by reflexivity.
  unfold bind at 1 5. rewrite Hres.
  destruct (resolve_ranges ["HEAD"] project _) as [[[erefs brefs]|e] w1];
    [|done].
  apply bind_ext. intros docs w2.
  unfold bind at 1 3.
  by rewrite (report_loop_ext [] ["HEAD"]).
Qed.

End Arguments.

(** ** Resolution failures *)

Lemma query_secure project refs : Forall is_query (secure_effects project refs).
Proof. unfold secure_effects. destruct (_ =? 0); repeat constructor. Qed.

Lemma query_resolve args project : Forall is_query (resolve_effects args project).
Proof.
  unfold resolve_effects.
  destruct (length args <? 2)%nat.
  - repeat apply Forall_app_2; auto using query_secure.
    + destruct (length args =? 0)%nat; repeat constructor.
    + destruct (secure_value _ _); repeat constructor.
  - apply Forall_app_2; auto using query_secure.
    destruct (secure_value _ _); auto using query_secure.
Qed.

Lemma resolve_value_raises args project e :
  resolve_value args project = Raise e -> exists msg, e = RevisionError msg.
Proof.
  unfold resolve_value.
  destruct (length args <? 2)%nat.
  - destruct (secure_value _ _); [|intros [= <-]; eauto].
    by destruct (rev_list_fn _ _ _).
  - destruct (secure_value _ _); [|intros [= <-]; eauto].
    destruct (secure_value _ _); [done|intros [= <-]; eauto].
Qed.

Section Outcome.

Context {P : Type} `{PatternClass P}.

Variables (args : list string) (project : GitProject)
          (name output : string) (format : option string)
          (patterns : option (list string))
          (remote : option string) (gitiles : bool)
          (os_path_exists : string -> bool).

Local Abbreviation run :=
  (generate_report (P:=P) args project name output format patterns remote
     gitiles os_path_exists).

Local Abbreviation pattern := (build_pattern (P:=P) patterns).

(** X3.  When a reference cannot be resolved, whatever the world,
    [generate_report] raises the [RevisionError] of the resolution after
    the console line and the queries only: the output directory is
    neither looked up nor created, no document is opened and no log is
    read. *)
Theorem revision_error_aborts e w :
  fst (resolve_ranges args project w) = Raise e ->
  (exists msg, e = RevisionError msg) /\
  exists effs,
    run w = (Raise e, emit effs w) /\
    Forall is_query effs /\
    Forall (fun x => forall fmt range, x <> GitLog fmt range) effs.
Proof.
  rewrite resolve_ranges_run. cbn [fst]. intros He.
  split; [by eapply resolve_value_raises|].
  exists (resolve_effects args project). split; [|split].
  - unfold generate_report, bind. by rewrite resolve_ranges_run, He.
  - apply query_resolve.
  - unfold resolve_effects, secure_effects.
    destruct (length args <? 2)%nat, (length args =? 0)%nat;
      repeat match goal with
             | |- context [if ?c then _ else _] => destruct c
             | |- context [match ?c with Some _ => _ | None => _ end] =>
                 destruct c
             end;
      simpl; repeat constructor; done.
Qed.

(** X4.  On a run without failure, the value returned does not depend on
    the rendering arguments: project name, output directory, format,
    patterns, remote, gitiles, nor on the pattern matcher. *)
Theorem records_independent_of_rendering
    {P' : Type} `{PatternClass P'} name' output' format' patterns' remote'
    gitiles' os_path_exists' :
  fst (run (fresh None)) =
  fst (generate_report (P:=P') args project name' output' format' patterns'
         remote' gitiles' os_path_exists' (fresh None)).
Proof.
  rewrite !fresh_run.
  by destruct (resolve_value args project) as [[erefs brefs]|e].
Qed.

(** ** The sections of a document *)

Lemma iterations_lookup erefs todo logs0 i it :
  iterations project erefs todo logs0 !! i = Some it ->
  exists ref,
    todo !! i = Some ref /\
    it = (ref, logs0 ++ flat_map (range_records project erefs)
                          (take (S i) todo)).
Proof.
  revert logs0 i. induction todo as [|r todo IH]; intros logs0 i; [done|].
  destruct i as [|i]; cbn [iterations lookup list_lookup].
  - intros [= <-]. exists r. split; [done|]. simpl. by rewrite app_nil_r.
  - intros (ref & Href & ->)%IH. exists ref. split; [done|].
    cbn [take flat_map]. by rewrite app_assoc.
Qed.

Lemma iterations_last erefs todo logs0 it :
  last (iterations project erefs todo logs0) = Some it ->
  snd it = logs0 ++ flat_map (range_records project erefs) todo.
Proof.
  revert logs0. induction todo as [|r todo IH]; intros logs0; [done|].
  change (iterations project erefs (r :: todo) logs0)
    with ((r, logs0 ++ range_records project erefs r) ::
          iterations project erefs todo
            (logs0 ++ range_records project erefs r)).
  rewrite last_cons.
  destruct (last (iterations project erefs todo _)) as [it'|] eqn:Hl.
  - intros [= <-]. rewrite (IH _ Hl). cbn [flat_map].
    by rewrite app_assoc.
  - intros [= <-]. apply last_None in Hl.
    apply (f_equal length) in Hl. rewrite iterations_length in Hl.
    destruct todo; [|done]. cbn [snd flat_map]. by rewrite app_nil_r.
Qed.

Lemma last_map {A B} (f : A -> B) (l : list A) y :
  last (map f l) = Some y -> exists x, last l = Some x /\ y = f x.
Proof.
  induction l as [|x l IH]; [done|].
  destruct l as [|x' l]; simpl.
  - intros [= <-]. eauto.
  - apply IH.
Qed.

(** X5.  Sections accumulate: in report.txt the rows of a section are
    the rows of the section before it followed by the rows of its own
    range, and the last section holds the rows of all the records the
    run returns. *)
Theorem sections_cumulative logs w' :
  run (fresh None) = (Ok logs, w') ->
  (forall i s s',
     sections_of Ftext w' !! i = Some s ->
     sections_of Ftext w' !! S i = Some s' ->
     sec_rows s `prefix_of` sec_rows s') /\
  (forall s, last (sections_of Ftext w') = Some s ->
     sec_rows s = map plain_row logs).
Proof.
  intros Hrun.
  destruct (completed_run _ _ _ _ _ _ _ _ _ _ _ Hrun)
    as (erefs & brefs & _ & -> & _ & _ & Hs).
  rewrite Hs. cbn [is_open]. split.
  - intros i s s'. destruct (want_text format); [|done].
    intros (it & Hit & ->)%lookup_map (it' & Hit' & ->)%lookup_map.
    apply iterations_lookup in Hit as (ref & Href & ->).
    apply iterations_lookup in Hit' as (ref' & Href' & ->).
    cbn [section_at sec_rows snd app].
    rewrite (take_S_r _ _ _ Href'), flat_map_app, map_app.
    by eexists.
  - intros s. destruct (want_text format); [|done].
    intros (it & Hit & ->)%last_map.
    apply iterations_last in Hit. cbn [section_at sec_rows]. by rewrite Hit.
Qed.

(** X6.  Every open document gets one section for each begin reference,
    in order; the label is [<begin>..<end>] when at least two references
    were given and the end reference alone otherwise. *)
Theorem section_labels erefs brefs w1 logs w' h :
  resolve_ranges args project (fresh None) = (Ok (erefs, brefs), w1) ->
  run (fresh None) = (Ok logs, w') ->
  is_open format pattern h = true ->
  map sec_label (sections_of h w') =
  map (fun ref => if (1 <? length args)%nat
                  then (ref ++ ".." ++ erefs)%string else erefs) brefs.
Proof.
  rewrite resolve_ranges_run. intros [= Hres _] Hrun Hh.
  destruct (completed_run _ _ _ _ _ _ _ _ _ _ _ Hrun)
    as (erefs' & brefs' & Hres' & _ & _ & _ & Hs).
  rewrite Hres in Hres'. injection Hres' as <- <-.
  rewrite Hs, Hh, map_map.
  assert (Hlab : forall ref, section_label args erefs brefs ref =
            if (0 <? length brefs)%nat && (1 <? length args)%nat
            then (ref ++ ".." ++ erefs)%string else erefs) by done.
  assert (Hgen : forall todo logs0,
    map (fun it => sec_label (section_at args name remote gitiles pattern h
                                erefs brefs it))
        (iterations project erefs todo logs0) =
    map (section_label args erefs brefs) todo).
  { induction todo as [|r todo IH]; intros logs0; [done|].
    cbn [iterations map]. rewrite IH. f_equal. by destruct h. }
  rewrite Hgen. apply map_ext_in. intros ref Hin. rewrite Hlab.
  destruct brefs; [done|]. done.
Qed.


(** X8.  With a format other than [all], [text] and [html] (or none),
    once the references are resolved the run completes and returns the
    records of all the ranges, and no document call is made. *)
Theorem unknown_format_writes_nothing erefs brefs :
  (forall f, format = Some f -> f ∉ ["all"; "text"; "html"]) ->
  fst (resolve_ranges args project (fresh None)) = Ok (erefs, brefs) ->
  exists w',
    run (fresh None) =
      (Ok (flat_map (range_records project erefs) brefs), w') /\
    Forall quiet (trace w').
Proof.
  intros Hf. rewrite resolve_ranges_run. cbn [fst]. intros Hres.
  eexists. split; [by rewrite fresh_run, Hres|]. cbn [trace].
  assert (Ht : want_text format = false).
  { unfold want_text, format_in. destruct format as [f|];
      [|by rewrite andb_false_r].
    rewrite bool_decide_eq_false_2; [by rewrite andb_false_r|].
    intros Hin. apply (Hf f eq_refl). revert Hin.
    rewrite !elem_of_cons, !elem_of_nil. tauto. }
  assert (Hh : want_html format = false).
  { unfold want_html, format_in. destruct format as [f|];
      [|by rewrite andb_false_r].
    rewrite bool_decide_eq_false_2; [by rewrite andb_false_r|].
    intros Hin. apply (Hf f eq_refl). revert Hin.
    rewrite !elem_of_cons, !elem_of_nil. tauto. }
  apply Forall_app_2; [apply quiet_resolve|].
  unfold report_effects, open_effects, close_effects, opened_documents.
  rewrite Ht, Hh. cbn [andb ftext ftextp fhtml fhtmlp app].
  constructor; [done|]. rewrite !app_nil_r.
  apply Forall_app_2; [destruct (os_path_exists output); repeat constructor|].
  induction (iterations _ _ _ _) as [|it its IH]; cbn [map concat];
    [constructor|].
  apply Forall_app_2; [|done].
  unfold iteration_effects, text_effects, html_effects.
  cbn [ftext ftextp fhtml fhtmlp]. rewrite !app_nil_r. apply quiet_range.
Qed.

(** X9.  With fewer than two references, when the end reference resolves
    and the query for its root ancestors fails, the run raises nothing:
    it returns no record, and each open document is opened and closed
    with no section. *)
Theorem no_roots_empty_report erefs :
  (length args < 2)%nat ->
  secure_value project (first_ref args) = Some erefs ->
  fst (rev_list_fn project "--max-parents=0" erefs) <> 0 ->
  exists w',
    run (fresh None) = (Ok [], w') /\
    forall h,
      doc_events h (trace w') =
      if is_open format pattern h
      then [open_event name output h; EvClose] else [].
Proof.
  intros Hlen Hsec Hrl.
  assert (Hres : resolve_value args project = Ok (erefs, [])).
  { unfold resolve_value.
    destruct (Nat.ltb_spec (length args) 2); [|lia].
    rewrite Hsec. destruct (rev_list_fn _ _ _) as [rc head].
    by destruct (Z.eqb_spec rc 0). }
  eexists. split.
  - by rewrite fresh_run, Hres.
  - intros h. cbn [trace]. rewrite doc_events_app.
    rewrite (doc_events_quiet _ _ (quiet_resolve _ _)), doc_events_report.
    by destruct (is_open format pattern h).
Qed.

(** X10.  report.html and report.txt show the same records: their i-th
    sections have the same label and their rows show the same texts in
    the same order. *)
Theorem html_shows_text_rows logs w' i sh st :
  run (fresh None) = (Ok logs, w') ->
  sections_of Fhtml w' !! i = Some sh ->
  sections_of Ftext w' !! i = Some st ->
  sec_label sh = sec_label st /\
  map row_text (sec_rows sh) = map row_text (sec_rows st).
Proof.
  intros Hrun.
  destruct (completed_run _ _ _ _ _ _ _ _ _ _ _ Hrun)
    as (erefs & brefs & _ & _ & _ & _ & Hs).
  rewrite !Hs. cbn [is_open].
  destruct (want_html format); [|done]. destruct (want_text format); [|done].
  intros (it & Hit & ->)%lookup_map (it' & Hit' & ->)%lookup_map.
  rewrite Hit in Hit'. injection Hit' as <-.
  split; [done|]. cbn [section_at sec_rows]. rewrite !map_map.
  apply map_ext. intros r. by rewrite row_text_html.
Qed.

End Outcome.

(** ** Extraction *)

Lemma pure_ret {A} (v : A) : pure_runs (ret v) v [].
Proof. intros w. unfold ret. by rewrite emit_nil. Qed.

Lemma pure_bind {A B} (m : M A) (f : A -> M B) a b e1 e2 :
  pure_runs m a e1 -> pure_runs (f a) b e2 -> pure_runs (bind m f) b (e1 ++ e2).
Proof.
  intros Hm Hf w. unfold bind. by rewrite (Hm w), (Hf (emit e1 w)), emit_app.
Qed.

Lemma pure_log project f r :
  pure_runs (log project f r) (log_fn project f r) [GitLog f r].
Proof. by intros w. Qed.

Lemma pure_query_field project sha1 it :
  pure_runs (query_field project sha1 it) (field_value project sha1 it)
            [GitLog ("--format=" ++ it)%string (sha1 ++ "^.." ++ sha1)%string].
Proof. by intros w. Qed.

Lemma pure_extract_commit project line logs :
  pure_runs (extract_commit project line logs)
            (logs ++ line_records project line) (line_effects line).
Proof.
  unfold extract_commit, line_records, line_effects.
  destruct (PyStr.truthy (PyStr.strip_quote line)); simpl.
  - change [GitLog "--format=%ae" ?a; GitLog "--format=%ce" ?b;
            GitLog "--format=%s" ?c]
      with ([GitLog "--format=%ae" a] ++ [GitLog "--format=%ce" b] ++
            [GitLog "--format=%s" c] ++ []).
    eapply pure_bind; [apply pure_query_field|].
    eapply pure_bind; [apply pure_query_field|].
    eapply pure_bind; [apply pure_query_field|apply pure_ret].
  - rewrite app_nil_r. apply pure_ret.
Qed.

Lemma pure_extract_commits project lines logs :
  pure_runs (extract_commits project lines logs)
            (logs ++ flat_map (line_records project) lines)
            (flat_map line_effects lines).
Proof.
  revert logs. induction lines as [|line lines IH]; intros logs; simpl.
  - rewrite app_nil_r. apply pure_ret.
  - rewrite app_assoc.
    eapply pure_bind; [apply pure_extract_commit | apply IH].
Qed.

Lemma pure_extract_range project ref erefs logs :
  pure_runs (extract_range project ref erefs logs)
            (logs ++ range_records project erefs ref)
            (range_effects project erefs ref).
Proof.
  intros w.
  unfold extract_range, range_records, range_effects, hash_query, bind.
  rewrite (pure_log _ _ _ w).
  destruct (log_fn project _ _) as [rc sha1s]; simpl.
  destruct (rc =? 0).
  - rewrite pure_extract_commits. by rewrite emit_app.
  - by rewrite app_nil_r.
Qed.

Lemma lstrip_first p s a :
  first_char (PyStr.lstrip p s) = Some a -> p a = false.
Proof.
  induction s as [|b s IH]; simpl; [done|].
  destruct (p b) eqn:Hb; [done|]. simpl. by intros [= <-].
Qed.

Lemma rstrip_first p s a :
  first_char (PyStr.rstrip p s) = Some a -> first_char s = Some a.
Proof.
  destruct s as [|b s]; simpl; [done|].
  destruct (PyStr.rstrip p s); [destruct (p b)|]; simpl; done.
Qed.

Lemma rstrip_last p s a :
  last_char (PyStr.rstrip p s) = Some a -> p a = false.
Proof.
  induction s as [|b s IH]; simpl; [done|].
  destruct (PyStr.rstrip p s) as [|c r] eqn:Hr.
  - destruct (p b) eqn:Hb; simpl; [done|]. by intros [= <-].
  - cbn [last_char]. exact IH.
Qed.

Lemma strip_trimmed p s : trimmed p (PyStr.strip_with p s).
Proof.
  unfold PyStr.strip_with. split; intros a Ha.
  - apply rstrip_first in Ha. by apply lstrip_first in Ha.
  - by apply rstrip_last in Ha.
Qed.


(** X12.  Every record extracted has a sha1 that is not empty and has no
    double quote at either end, and an author, a committer and a subject
    with no white space at either end. *)
Theorem records_trimmed project erefs ref r :
  r ∈ range_records project erefs ref ->
  PyStr.truthy (rec_sha1 r) = true /\
  trimmed is_dquote (rec_sha1 r) /\
  trimmed PyStr.is_space (rec_author r) /\
  trimmed PyStr.is_space (rec_committer r) /\
  trimmed PyStr.is_space (rec_subject r).
Proof.
  unfold range_records.
  destruct (fst (hash_query project ref erefs) =? 0);
    [|by intros ?%elem_of_nil].
  induction (PyStr.split _ _) as [|line lines IH];
    [by intros ?%elem_of_nil|].
  cbn [flat_map]. rewrite elem_of_app. intros [Hr|Hr]; [|by apply IH].
  unfold line_records in Hr.
  destruct (PyStr.truthy (PyStr.strip_quote line)) eqn:Ht;
    [|by apply elem_of_nil in Hr].
  apply list_elem_of_singleton in Hr as ->. cbn.
  repeat split; try done; unfold field_value;
    solve [ apply (strip_trimmed is_dquote)
          | apply (strip_trimmed PyStr.is_space) ].
Qed.

(** ** Patterns *)

Lemma find_email tok : PyStr.find ":" ("email:" ++ tok) = 5.
Proof. reflexivity. Qed.

(** X13.  Every token handed to [Pattern] has a [:] after its first
    character, so building again from built tokens changes nothing. *)
Theorem build_token_field (tok : string) (toks : list string) :
  0 < PyStr.find ":" (build_token tok) /\
  build_token (build_token tok) = build_token tok /\
  build_pats (build_pats toks) = build_pats toks /\
  length (build_pats toks) = length toks.
Proof.
  assert (Hpos : forall t, 0 < PyStr.find ":" (build_token t)).
  { intros t. unfold build_token.
    destruct (Z.ltb_spec 0 (PyStr.find ":" t)); [done|].
    by rewrite find_email. }
  assert (Hid : forall t, build_token (build_token t) = build_token t).
  { intros t. unfold build_token at 1.
    by destruct (Z.ltb_spec 0 (PyStr.find ":" (build_token t)));
      [|specialize (Hpos t); lia]. }
  repeat split; [apply Hpos|apply Hid| |].
  - unfold build_pats. rewrite map_map. by apply map_ext.
  - unfold build_pats. by rewrite length_map.
Qed.

(** ** [execute] *)

Lemma lower_char_idem a : PyStr.lower_char (PyStr.lower_char a) = PyStr.lower_char a.
Proof. destruct a as [[] [] [] [] [] [] [] []]; reflexivity. Qed.

Lemma lower_idem s : PyStr.lower (PyStr.lower s) = PyStr.lower s.
Proof.
  induction s as [|a s IH]; simpl; [done|]. by rewrite lower_char_idem, IH.
Qed.

(** X14.  With any non-empty [--remote], [execute] raises before it does
    anything: [OptionMissed] when the output is not set, and otherwise
    the [AttributeError] of the lookup [urlparse.urlparse]; the report
    is never generated. *)
Theorem execute_remote_never_reports {P : Type} `{PatternClass P}
    (urlparse_fn : string -> ParseResult) (options : Options)
    (project : GitProject) (os_path_exists : string -> bool)
    (args : list string) (w : world) (r : string) :
  opt_remote options = Some r ->
  PyStr.truthy r = true ->
  exists e,
    execute (P:=P) urlparse_fn options project os_path_exists args w =
      (Raise e, w) /\
    (e = OptionMissed "output is not set" \/
     e = AttributeError "'function' object has no attribute 'urlparse'").
Proof.
  intros Hr Ht. unfold execute, split_remote, RaiseExceptionIfOptionMissed.
  rewrite Hr, Ht.
  destruct (opt_output options) as [o|]; [|eauto].
  destruct (PyStr.truthy o); eauto.
Qed.

(** X15.  The format option is read without regard to letter case:
    [execute] does the same with a format and with its lower-case
    form. *)
Theorem execute_format_case {P : Type} `{PatternClass P}
    (urlparse_fn : string -> ParseResult) (project : GitProject)
    (os_path_exists : string -> bool) (args : list string) (w : world)
    rem out git pat (f : string) :
  execute (P:=P) urlparse_fn (mk_options rem out git (Some f) pat)
    project os_path_exists args w =
  execute (P:=P) urlparse_fn
    (mk_options rem out git (Some (PyStr.lower f)) pat)
    project os_path_exists args w.
Proof. unfold execute. cbn. by rewrite lower_idem. Qed.

(** ** report.html *)

Lemma html_row_cells name remote gitiles r :
  html_row name remote gitiles Fhtml r =
  mk_row [sha1_cell name remote gitiles (rec_sha1 r);
          Item Fhtml (Str (rec_author r))
            (Some ("mailto:" ++ rec_author r)%string) None;
          Item Fhtml (Str (rec_committer r))
            (Some ("mailto:" ++ rec_committer r)%string) None;
          Str (rec_subject r)]
         (Some TABLE_CSS).
Proof.
  unfold html_row, sha1_cell, remote_truthy, remote_str, mailto, item.
  destruct remote as [rm|]; [|done]. cbn [default].
  destruct (PyStr.truthy rm); [|done]. cbn [negb].
  by destruct (gitiles && PyStr.truthy name).
Qed.

Lemma elem_of_flat_map_take {A B} (f : A -> list B) (l : list A) n x :
  x ∈ flat_map f (take n l) -> x ∈ flat_map f l.
Proof.
  intros Hx. rewrite <- (take_drop n l), flat_map_app, elem_of_app. by left.
Qed.

Lemma elem_of_map_inv {A B} (f : A -> B) (l : list A) y :
  y ∈ map f l -> exists x, x ∈ l /\ y = f x.
Proof.
  induction l as [|a l IH]; simpl; [by intros ?%elem_of_nil|].
  rewrite elem_of_cons. intros [->|(x & Hx & ->)%IH].
  - exists a. split; [left|done].
  - exists x. split; [by right|done].
Qed.

(** X16.  Every row of report.html is the row of a record the run
    returns: the sha1 cell is the bare sha1 without remote, the two spans
    ([sha1[:20]] to [<remote>#/q/<sha1>], the rest to the gitiles page)
    with remote, name and gitiles, and one link to [<remote>#/q/<sha1>]
    otherwise; author and committer are [mailto:] links; the row carries
    the four column classes. *)
Theorem report_html_rows {P : Type} `{PatternClass P}
    (args : list string) (project : GitProject) (name output : string)
    (format : option string) (patterns : option (list string))
    (remote : option string) (gitiles : bool)
    (os_path_exists : string -> bool) logs w' i s rw :
  generate_report (P:=P) args project name output format patterns remote
    gitiles os_path_exists (fresh None) = (Ok logs, w') ->
  sections_of Fhtml w' !! i = Some s ->
  rw ∈ sec_rows s ->
  exists r,
    r ∈ logs /\
    rw = mk_row [sha1_cell name remote gitiles (rec_sha1 r);
                 Item Fhtml (Str (rec_author r))
                   (Some ("mailto:" ++ rec_author r)%string) None;
                 Item Fhtml (Str (rec_committer r))
                   (Some ("mailto:" ++ rec_committer r)%string) None;
                 Str (rec_subject r)]
                (Some ["sha1"; "email"; "email"; "title"]).
Proof.
  intros Hrun.
  destruct (completed_run _ _ _ _ _ _ _ _ _ _ _ Hrun)
    as (erefs & brefs & _ & -> & _ & _ & Hs).
  rewrite Hs. cbn [is_open]. destruct (want_html format); [|done].
  intros (it & Hit & ->)%lookup_map.
  apply iterations_lookup in Hit as (ref & _ & ->).
  cbn [section_at sec_rows snd app].
  intros (r & Hr & ->)%elem_of_map_inv.
  exists r. split; [by eapply elem_of_flat_map_take|].
  apply html_row_cells.
Qed.

(** ** Every exit path *)

Lemma table_balance_app h a b :
  table_balance h (a ++ b) = table_balance h a + table_balance h b.
Proof.
  induction a as [|e a IH]; [done|].
  destruct e as [| | | | | |h' ev]; try exact IH.
  destruct ev; try exact IH; simpl; rewrite IH; lia.
Qed.

Lemma well_nested_nil : well_nested [].
Proof. by intros h. Qed.

Lemma well_nested_app a b : well_nested a -> well_nested b -> well_nested (a ++ b).
Proof. intros Ha Hb h. rewrite table_balance_app, Ha, Hb. done. Qed.

Lemma well_nested_plain e : plain e -> well_nested [e].
Proof. intros He h. destruct e as [| | | | | |h' ev]; try done. by destruct ev. Qed.

Lemma well_nested_quiet d : Forall quiet d -> well_nested d.
Proof.
  intros Hd h. induction Hd as [|e d He _ IH]; [done|]. by destruct e.
Qed.

Lemma well_nested_table h0 arg d :
  well_nested d ->
  well_nested (Doc h0 (EvTable arg) :: d ++ [Doc h0 EvTableExit]).
Proof.
  intros Hd h. cbn [table_balance]. rewrite table_balance_app, Hd.
  cbn [table_balance]. destruct (decide (h0 = h)); lia.
Qed.

Lemma safe_ret {A} (v : A) : safe (ret v).
Proof.
  intros w. split; [|done]. exists []. split; [|apply well_nested_nil].
  simpl. by rewrite app_nil_r.
Qed.

Lemma safe_raise {A} e : report_exn e -> safe (raise (A:=A) e).
Proof.
  intros He w. split; [|by intros e' [= <-]].
  exists []. split; [|apply well_nested_nil]. simpl. by rewrite app_nil_r.
Qed.

Lemma safe_bind {A B} (m : M A) (f : A -> M B) :
  safe m -> (forall a, safe (f a)) -> safe (bind m f).
Proof.
  intros Hm Hf w. destruct (Hm w) as [(d1 & Ht1 & Hq1) He1].
  unfold bind. destruct (m w) as [[a|e] w1]; cbn [fst snd] in *.
  - destruct (Hf a w1) as [(d2 & Ht2 & Hq2) He2]. split; [|done].
    exists (d1 ++ d2). split; [|by apply well_nested_app].
    by rewrite Ht2, Ht1, app_assoc.
  - split; [by exists d1|]. intros e' [= <-]. by apply He1.
Qed.

Lemma safe_perform e : plain e -> safe (perform e).
Proof.
  intros He w. split; [|done]. exists [e]. split; [done|].
  by apply well_nested_plain.
Qed.

Lemma safe_io e : plain e -> safe (io e).
Proof.
  intros He w. unfold io. destruct (io_budget w) as [[|n]|]; cbn [fst snd].
  - split; [|by intros e' [= <-]]. exists []. split; [|apply well_nested_nil].
    by rewrite app_nil_r.
  - split; [|done]. exists [e]. split; [done|by apply well_nested_plain].
  - split; [|done]. exists [e]. split; [done|by apply well_nested_plain].
Qed.

Lemma safe_with_table h arg (body : M unit) :
  safe body -> safe (with_table h arg body).
Proof.
  intros Hb w. unfold with_table, bind, io, finally.
  destruct (io_budget w) as [[|n]|] eqn:Hw.
  - split; [|by intros e' [= <-]]. exists []. split; [|apply well_nested_nil].
    cbn. by rewrite app_nil_r.
  - match goal with
    | |- context [body ?w1] =>
        destruct (Hb w1) as [(d & Ht & Hq) He]; destruct (body w1) as [r w2]
    end.
    cbn [fst snd trace emit] in *. split; [|done].
    exists (Doc h (EvTable arg) :: d ++ [Doc h EvTableExit]).
    split; [|by apply well_nested_table].
    rewrite Ht. by rewrite <- !app_assoc.
  - match goal with
    | |- context [body ?w1] =>
        destruct (Hb w1) as [(d & Ht & Hq) He]; destruct (body w1) as [r w2]
    end.
    cbn [fst snd trace emit] in *. split; [|done].
    exists (Doc h (EvTable arg) :: d ++ [Doc h EvTableExit]).
    split; [|by apply well_nested_table].
    rewrite Ht. by rewrite <- !app_assoc.
Qed.

Lemma safe_for_each {A} (l : list A) (f : A -> M unit) :
  (forall x, safe (f x)) -> safe (for_each l f).
Proof.
  intros Hf. induction l as [|x l IH]; [apply safe_ret|].
  apply safe_bind; [apply Hf | by intros _].
Qed.

Lemma safe_exact {A} (m : M A) (r : result A) d :
  (forall w, m w = (r, emit d w)) ->
  Forall quiet d -> (forall e, r = Raise e -> report_exn e) -> safe m.
Proof.
  intros Hm Hd He w. rewrite Hm. split; [|exact He].
  exists d. split; [done|by apply well_nested_quiet].
Qed.

Section Safe.

Context {P : Type} `{PatternClass P}.

Variables (args : list string) (project : GitProject)
          (name output : string) (format : option string)
          (patterns : option (list string))
          (remote : option string) (gitiles : bool)
          (os_path_exists : string -> bool).

Lemma safe_resolve_ranges : safe (resolve_ranges args project).
Proof.
  eapply safe_exact; [apply resolve_ranges_run|apply quiet_resolve|].
  by intros e (msg & ->)%resolve_value_raises.
Qed.

Lemma safe_extract_range ref erefs logs :
  safe (extract_range project ref erefs logs).
Proof.
  eapply safe_exact; [apply pure_extract_range|apply quiet_range|done].
Qed.

Lemma safe_open_if {A} c (m : M A) : safe m -> safe (open_if c m).
Proof.
  intros Hm. destruct c; [|apply safe_ret].
  apply safe_bind; [done|intros a; apply safe_ret].
Qed.

Lemma safe_open h p n f c : safe (FormattedFile_open h p n f c).
Proof. apply safe_bind; [by apply safe_io|intros _; apply safe_ret]. Qed.

Lemma safe_open_documents (pattern : P) :
  safe (open_documents name output format os_path_exists pattern).
Proof.
  unfold open_documents.
  apply safe_bind.
  { destruct (os_path_exists output); [by apply safe_perform|].
    apply safe_bind; [by apply safe_perform|intros _; by apply safe_io]. }
  intros _.
  repeat (apply safe_bind; [apply safe_open_if, safe_open|intros ?]).
  apply safe_ret.
Qed.

Lemma safe_write_row h r : safe (write_row h r).
Proof. by apply safe_io. Qed.

Lemma safe_render_text (pattern : P) docs refs logs :
  safe (render_text pattern docs refs logs).
Proof.
  unfold render_text. destruct (ftext docs) as [ft|]; [|apply safe_ret].
  apply safe_bind; [by apply safe_io|intros _].
  apply safe_bind.
  { apply safe_with_table, safe_for_each. intros r. by apply safe_io. }
  intros _. destruct (ftextp docs) as [ftp|]; [|apply safe_ret].
  apply safe_bind; [by apply safe_io|intros _].
  apply safe_with_table, safe_for_each. intros r.
  destruct (pattern_match _ _ _); [by apply safe_io|apply safe_ret].
Qed.

Lemma safe_render_html (pattern : P) docs refs logs :
  safe (render_html name remote gitiles pattern docs refs logs).
Proof.
  unfold render_html. destruct (fhtml docs) as [fh|]; [|apply safe_ret].
  apply safe_bind; [by apply safe_io|intros _].
  apply safe_bind.
  { apply safe_with_table, safe_for_each. intros r. apply safe_write_row. }
  intros _. destruct (fhtmlp docs) as [fhp|]; [|apply safe_ret].
  apply safe_bind; [by apply safe_io|intros _].
  apply safe_with_table, safe_for_each. intros r.
  destruct (negb _); [apply safe_ret|apply safe_write_row].
Qed.

Lemma safe_report_loop (pattern : P) docs erefs brefs todo logs :
  safe (report_loop args project name remote gitiles pattern docs erefs
          brefs todo logs).
Proof.
  revert logs. induction todo as [|ref todo IH]; intros logs;
    [apply safe_ret|].
  cbn [report_loop].
  apply safe_bind; [apply safe_extract_range|intros logs'].
  apply safe_bind; [apply safe_render_text|intros _].
  apply safe_bind; [apply safe_render_html|intros _]. apply IH.
Qed.

Lemma safe_close_documents docs : safe (close_documents docs).
Proof.
  unfold close_documents, close_if, close.
  repeat (apply safe_bind;
          [match goal with
           | |- safe (match ?d with Some _ => _ | None => _ end) =>
               destruct d; [by apply safe_io|apply safe_ret]
           end|intros _]).
  destruct (fhtml docs); [by apply safe_io|apply safe_ret].
Qed.

Lemma safe_generate_report :
  safe (generate_report (P:=P) args project name output format patterns
          remote gitiles os_path_exists).
Proof.
  unfold generate_report.
  apply safe_bind; [apply safe_resolve_ranges|intros [erefs brefs]].
  apply safe_bind; [apply safe_open_documents|intros docs].
  apply safe_bind; [apply safe_report_loop|intros logs].
  apply safe_bind; [apply safe_close_documents|intros _; apply safe_ret].
Qed.

(** X17.  On every exit path, whatever operation fails, the table
    writers are left: in each document [generate_report] leaves as many
    tables as it enters. *)
Theorem tables_always_left w h :
  table_balance h
    (trace (snd (generate_report (P:=P) args project name output format
                   patterns remote gitiles os_path_exists w))) =
  table_balance h (trace w).
Proof.
  destruct (safe_generate_report w) as [(d & Ht & Hq) _].
  rewrite Ht, table_balance_app, Hq. lia.
Qed.

(** X19.  When the output directory is missing and cannot be created,
    the run stops with [IOError] right after the look-up: the references
    have been resolved, no document is opened and no log is read. *)
Theorem makedirs_failure erefs brefs w1 :
  resolve_ranges args project (fresh (Some 0%nat)) = (Ok (erefs, brefs), w1) ->
  os_path_exists output = false ->
  generate_report (P:=P) args project name output format patterns remote
    gitiles os_path_exists (fresh (Some 0%nat)) =
  (Raise IOError, emit [PathExists output] w1).
Proof.
  intros Hres Hex. unfold generate_report. unfold bind at 1. rewrite Hres.
  rewrite resolve_ranges_run in Hres. injection Hres as _ <-.
  unfold open_documents. rewrite Hex. reflexivity.
Qed.

End Safe.

(** ** The further properties on the sample repository *)

Lemma revision_error_aborts_witness :
  exists effs,
    generate_report (P:=list SpecPattern.expr) ["C"] Demo.two_roots "" "out"
      (Some "all") None None true (fun _ => true) (fresh None) =
      (Raise (RevisionError "Unknown C"), emit effs (fresh None)) /\
    Forall is_query effs.
Proof.
  destruct (revision_error_aborts (P:=list SpecPattern.expr) ["C"]
              Demo.two_roots "" "out" (Some "all") None None true
              (fun _ => true) (RevisionError "Unknown C") (fresh None))
    as [_ (effs & Hrun & Hq & _)].
  - vm_compute; reflexivity.
  - by exists effs.
Defined.

Lemma sections_cumulative_witness :
  sec_rows (Demo.nth_section Ftext (snd Demo.run_all) 1) =
  map plain_row (Demo.logs_of Demo.run_all).
Proof.
  assert (Hrun : generate_report (P:=list SpecPattern.expr) [] Demo.two_roots
                   "" "out" (Some "all") (Some ["bob"]) None true
                   (fun _ => true) (fresh None) =
                 (Ok (Demo.logs_of Demo.run_all), snd Demo.run_all))
    by (vm_compute; reflexivity).
  destruct (sections_cumulative _ _ _ _ _ _ _ _ _ _ _ Hrun) as [_ Hlast].
  apply Hlast. vm_compute; reflexivity.
Defined.

Lemma section_labels_witness :
  map sec_label (sections_of Fhtml (snd Sample.run_html)) = ["a0..b0"].
Proof.
  apply (section_labels (P:=list SpecPattern.expr) ["A"; "B"] Demo.two_roots
           "myproj" "out" (Some "html") None
           (Some "https://review.example.com") true (fun _ => true)
           "b0" ["a0"]
           (snd (resolve_ranges ["A"; "B"] Demo.two_roots (fresh None)))
           (Demo.logs_of Sample.run_html) (snd Sample.run_html) Fhtml).
  - vm_compute; reflexivity.
  - vm_compute; reflexivity.
  - reflexivity.
Defined.


Lemma unknown_format_writes_nothing_witness :
  exists w',
    Sample.report_in [] Demo.two_roots (Some "pdf") (fun _ => false) None =
      (Ok (range_records Demo.two_roots "e1" "r1" ++
           range_records Demo.two_roots "e1" "r2"), w') /\
    Forall quiet (trace w').
Proof.
  destruct (unknown_format_writes_nothing (P:=list SpecPattern.expr) []
              Demo.two_roots "" "out" (Some "pdf") (Some ["bob"]) None true
              (fun _ => false) "e1" ["r1"; "r2"])
    as (w' & Hrun & Hq).
  - intros f [= <-]. rewrite !elem_of_cons, elem_of_nil.
    intros [?|[?|[?|?]]]; done.
  - vm_compute; reflexivity.
  - exists w'. split; [|exact Hq].
    unfold Sample.report_in. rewrite Hrun. reflexivity.
Defined.

Lemma no_roots_empty_report_witness :
  exists w',
    Sample.report_in [] Sample.no_roots (Some "text") (fun _ => true) None =
      (Ok [], w') /\
    doc_events Ftext (trace w') =
      [EvOpen "out/report.txt" "" TEXT None; EvClose].
Proof.
  destruct (no_roots_empty_report (P:=list SpecPattern.expr) []
              Sample.no_roots "" "out" (Some "text") (Some ["bob"]) None
              true (fun _ => true) "e1")
    as (w' & Hrun & Hev).
  - simpl. lia.
  - reflexivity.
  - simpl. lia.
  - exists w'. split; [exact Hrun|]. exact (Hev Ftext).
Defined.

Lemma html_shows_text_rows_witness :
  map row_text (sec_rows (Demo.nth_section Fhtml (snd Demo.run_all) 1)) =
  map row_text (sec_rows (Demo.nth_section Ftext (snd Demo.run_all) 1)).
Proof.
  assert (Hrun : generate_report (P:=list SpecPattern.expr) [] Demo.two_roots
                   "" "out" (Some "all") (Some ["bob"]) None true
                   (fun _ => true) (fresh None) =
                 (Ok (Demo.logs_of Demo.run_all), snd Demo.run_all))
    by (vm_compute; reflexivity).
  apply (html_shows_text_rows _ _ _ _ _ _ _ _ _ _ _ 1%nat _ _ Hrun);
    vm_compute; reflexivity.
Defined.

Lemma records_trimmed_witness :
  PyStr.truthy (rec_sha1 Sample.c1) = true /\
  trimmed is_dquote (rec_sha1 Sample.c1) /\
  trimmed PyStr.is_space (rec_author Sample.c1) /\
  trimmed PyStr.is_space (rec_committer Sample.c1) /\
  trimmed PyStr.is_space (rec_subject Sample.c1).
Proof.
  apply (records_trimmed Demo.two_roots "e1" "r1" Sample.c1).
  vm_compute. constructor.
Defined.

Lemma execute_remote_never_reports_witness :
  exists e,
    execute (P:=list SpecPattern.expr)
      (fun _ => mk_parse_result "https" "" (Some "gerrit.example.com") None)
      (mk_options (Some "https://gerrit.example.com") (Some "out") false
                  (Some "text") None)
      Demo.two_roots (fun _ => true) ["A"; "B"] (fresh None) =
      (Raise e, fresh None) /\
    (e = OptionMissed "output is not set" \/
     e = AttributeError "'function' object has no attribute 'urlparse'").
Proof.
  apply (execute_remote_never_reports (P:=list SpecPattern.expr) _ _ _ _ _ _
           "https://gerrit.example.com"); reflexivity.
Defined.

Lemma report_html_rows_witness :
  exists r,
    r ∈ Demo.logs_of Sample.run_html /\
    Sample.first_row Fhtml (snd Sample.run_html) =
    mk_row [sha1_cell "myproj" (Some "https://review.example.com") true
              (rec_sha1 r);
            Item Fhtml (Str (rec_author r))
              (Some ("mailto:" ++ rec_author r)%string) None;
            Item Fhtml (Str (rec_committer r))
              (Some ("mailto:" ++ rec_committer r)%string) None;
            Str (rec_subject r)]
           (Some ["sha1"; "email"; "email"; "title"]).
Proof.
  apply (report_html_rows (P:=list SpecPattern.expr) ["A"; "B"]
           Demo.two_roots "myproj" "out" (Some "html") None
           (Some "https://review.example.com") true (fun _ => true)
           (Demo.logs_of Sample.run_html) (snd Sample.run_html) 0%nat
           (Demo.nth_section Fhtml (snd Sample.run_html) 0)).
  - vm_compute; reflexivity.
  - vm_compute; reflexivity.
  - vm_compute. constructor.
Defined.

Lemma makedirs_failure_witness :
  Sample.report_in [] Demo.one_root (Some "text") (fun _ => false)
    (Some 0%nat) =
  (Raise IOError,
   mk_world [Console "No SHA-1 provided, use HEAD by default";
             GitRevParse "HEAD"; GitRevList "--max-parents=0" "e1";
             PathExists "out"] (Some 0%nat)).
Proof.
  apply (makedirs_failure (P:=list SpecPattern.expr) [] Demo.one_root ""
           "out" (Some "text") (Some ["bob"]) None true (fun _ => false)
           "e1" ["r1"]
           (mk_world [Console "No SHA-1 provided, use HEAD by default";
                      GitRevParse "HEAD"; GitRevList "--max-parents=0" "e1"]
                     (Some 0%nat))); reflexivity.
Defined.

(** ** The output directory and the filter *)

Lemma fs_effects_app a b : fs_effects (a ++ b) = fs_effects a ++ fs_effects b.
Proof.
  induction a as [|e a IH]; [done|]. destruct e; simpl; by rewrite ?IH.
Qed.

Lemma fs_effects_query d : Forall is_query d -> fs_effects d = [].
Proof. induction 1 as [|e d He _ IH]; [done|]. by destruct e. Qed.

Lemma fs_effects_docs h evs : fs_effects (map (Doc h) evs) = [].
Proof. induction evs as [|e evs IH]; by simpl. Qed.

Lemma query_range project erefs ref : Forall is_query (range_effects project erefs ref).
Proof.
  unfold range_effects. constructor; [done|].
  destruct (_ =? 0); [|constructor].
  induction (PyStr.split _ _) as [|l ls IH]; simpl; [constructor|].
  apply Forall_app_2; [|done].
  unfold line_effects. destruct (PyStr.truthy _); repeat constructor.
Qed.

Lemma filter_map_comm {A B} (f : A -> B) (p : B -> bool) (l : list A) :
  List.filter p (map f l) = map f (List.filter (fun x => p (f x)) l).
Proof.
  induction l as [|x l IH]; simpl; [done|].
  destruct (p (f x)); simpl; by rewrite IH.
Qed.

Section Directory.

Context {P : Type} `{PatternClass P}.

Variables (args : list string) (project : GitProject)
          (name output : string) (format : option string)
          (patterns : option (list string))
          (remote : option string) (gitiles : bool)
          (os_path_exists : string -> bool).

Local Abbreviation run :=
  (generate_report (P:=P) args project name output format patterns remote
     gitiles os_path_exists).

Local Abbreviation pattern := (build_pattern (P:=P) patterns).

Lemma fs_iterations (docs : documents) erefs brefs its :
  fs_effects
    (concat (map (iteration_effects args project name remote gitiles
                    pattern docs erefs brefs) its)) = [].
Proof.
  induction its as [|it its IH]; cbn [map concat]; [done|].
  rewrite fs_effects_app, IH, app_nil_r.
  unfold iteration_effects, text_effects, html_effects, section_effects.
  rewrite (fs_effects_app (range_effects _ _ _)),
    (fs_effects_query _ (query_range _ _ _)), fs_effects_app.
  destruct (ftext docs), (ftextp docs), (fhtml docs), (fhtmlp docs);
    by rewrite ?fs_effects_app, ?fs_effects_docs.
Qed.

(** X20.  On a run without failure the output directory is looked up
    once and created only when it is missing, whatever the format, even
    when no document is to be written. *)
Theorem directory_created_when_missing logs w' :
  run (fresh None) = (Ok logs, w') ->
  fs_effects (trace w') =
  PathExists output ::
  (if os_path_exists output then [] else [Makedirs output]).
Proof.
  intros Hrun.
  destruct (completed_run _ _ _ _ _ _ _ _ _ _ _ Hrun)
    as (erefs & brefs & _ & _ & _ & Htr & _).
  rewrite Htr, fs_effects_app, (fs_effects_query _ (query_resolve _ _)).
  unfold report_effects. rewrite !fs_effects_app, fs_iterations.
  unfold open_effects, close_effects, opened_documents.
  destruct (os_path_exists output), (want_text format), (want_html format),
    (pattern_bool pattern); reflexivity.
Qed.

(** X21.  A row of report.txt is written to filter.txt exactly when the
    pattern matches its committer under the names [e,email]: the rows of
    a section of filter.txt are the rows of the section of report.txt
    filtered on the committer cell. *)
Theorem filter_on_committer logs w' i sf s :
  run (fresh None) = (Ok logs, w') ->
  sections_of Ftextp w' !! i = Some sf ->
  sections_of Ftext w' !! i = Some s ->
  sec_rows sf =
  List.filter (fun rw => pattern_match pattern "e,email" (row_committer rw))
              (sec_rows s).
Proof.
  intros Hrun.
  destruct (completed_run _ _ _ _ _ _ _ _ _ _ _ Hrun)
    as (erefs & brefs & _ & _ & _ & _ & Hs).
  rewrite !Hs. cbn [is_open].
  destruct (want_text format); [|done].
  destruct (pattern_bool pattern); [|done]. cbn [andb].
  intros (it & Hit & ->)%lookup_map (it' & Hit' & ->)%lookup_map.
  rewrite Hit in Hit'. injection Hit' as <-.
  cbn [section_at sec_rows]. by rewrite filter_map_comm.
Qed.

End Directory.

Lemma directory_created_when_missing_witness :
  fs_effects
    (trace (snd (Sample.report_in [] Demo.two_roots (Some "pdf")
                   (fun _ => false) None))) =
  [PathExists "out"; Makedirs "out"].
Proof.
  apply (directory_created_when_missing (P:=list SpecPattern.expr) []
           Demo.two_roots "" "out" (Some "pdf") (Some ["bob"]) None true
           (fun _ => false) (Demo.logs_of Demo.run_all)).
  vm_compute; reflexivity.
Defined.

Lemma filter_on_committer_witness :
  sec_rows (Demo.nth_section Ftextp (snd Demo.run_all) 1) =
  List.filter
    (fun rw => pattern_match (P:=list SpecPattern.expr)
                 (build_pattern (Some ["bob"])) "e,email" (row_committer rw))
    (sec_rows (Demo.nth_section Ftext (snd Demo.run_all) 1)).
Proof.
  assert (Hrun : generate_report (P:=list SpecPattern.expr) [] Demo.two_roots
                   "" "out" (Some "all") (Some ["bob"]) None true
                   (fun _ => true) (fresh None) =
                 (Ok (Demo.logs_of Demo.run_all), snd Demo.run_all))
    by (vm_compute; reflexivity).
  apply (filter_on_committer _ _ _ _ _ _ _ _ _ _ _ 1%nat _ _ Hrun);
    vm_compute; reflexivity.
Defined.

(** ** Closing on every exit path *)

Lemma opened_steady d : Forall steady d -> opened_handles d = [].
Proof.
  induction 1 as [|e d He _ IH]; [done|].
  destruct e as [| | | | | |h ev]; try done. by destruct ev.
Qed.

Lemma closed_steady d : Forall steady d -> closed_handles d = [].
Proof.
  induction 1 as [|e d He _ IH]; [done|].
  destruct e as [| | | | | |h ev]; try done. by destruct ev.
Qed.

Lemma steady_quiet d : Forall quiet d -> Forall steady d.
Proof. intros Hd. eapply Forall_impl; [exact Hd|]. by intros []. Qed.

Lemma each_ret {A} (R : effect -> Prop) (v : A) :
  keeps (Forall R) report_exn (ret v).
Proof.
  intros w. split; [|done]. exists []. split; [|constructor].
  simpl. by rewrite app_nil_r.
Qed.

Lemma each_bind {A B} (R : effect -> Prop) (m : M A) (f : A -> M B) :
  keeps (Forall R) report_exn m ->
  (forall a, keeps (Forall R) report_exn (f a)) ->
  keeps (Forall R) report_exn (bind m f).
Proof.
  intros Hm Hf w. destruct (Hm w) as [(d1 & Ht1 & Hq1) He1].
  unfold bind. destruct (m w) as [[a|e] w1]; cbn [fst snd] in *.
  - destruct (Hf a w1) as [(d2 & Ht2 & Hq2) He2]. split; [|done].
    exists (d1 ++ d2). split; [|by apply Forall_app_2].
    by rewrite Ht2, Ht1, app_assoc.
  - split; [by exists d1|]. intros e' [= <-]. by apply He1.
Qed.

Lemma each_io (R : effect -> Prop) e :
  R e -> keeps (Forall R) report_exn (io e).
Proof.
  intros He w. unfold io. destruct (io_budget w) as [[|n]|]; cbn [fst snd].
  - split; [|by intros e' [= <-]]. exists []. split; [|constructor].
    by rewrite app_nil_r.
  - split; [|done]. exists [e]. split; [done|by repeat constructor].
  - split; [|done]. exists [e]. split; [done|by repeat constructor].
Qed.

Lemma each_with_table (R : effect -> Prop) h arg (body : M unit) :
  R (Doc h (EvTable arg)) -> R (Doc h EvTableExit) ->
  keeps (Forall R) report_exn body ->
  keeps (Forall R) report_exn (with_table h arg body).
Proof.
  intros R1 R2 Hb w. unfold with_table, bind, io, finally.
  destruct (io_budget w) as [[|n]|] eqn:Hw.
  - split; [|by intros e' [= <-]]. exists []. split; [|constructor].
    cbn. by rewrite app_nil_r.
  - match goal with
    | |- context [body ?w1] =>
        destruct (Hb w1) as [(d & Ht & Hq) He]; destruct (body w1) as [r w2]
    end.
    cbn [fst snd trace emit] in *. split; [|done].
    exists (Doc h (EvTable arg) :: d ++ [Doc h EvTableExit]).
    split; [rewrite Ht; by rewrite <- !app_assoc|].
    constructor; [done|]. apply Forall_app_2; [done|by repeat constructor].
  - match goal with
    | |- context [body ?w1] =>
        destruct (Hb w1) as [(d & Ht & Hq) He]; destruct (body w1) as [r w2]
    end.
    cbn [fst snd trace emit] in *. split; [|done].
    exists (Doc h (EvTable arg) :: d ++ [Doc h EvTableExit]).
    split; [rewrite Ht; by rewrite <- !app_assoc|].
    constructor; [done|]. apply Forall_app_2; [done|by repeat constructor].
Qed.

Lemma each_for_each {A} (R : effect -> Prop) (l : list A) (f : A -> M unit) :
  (forall x, keeps (Forall R) report_exn (f x)) ->
  keeps (Forall R) report_exn (for_each l f).
Proof.
  intros Hf. induction l as [|x l IH]; [apply each_ret|].
  apply each_bind; [apply Hf | by intros _].
Qed.

Lemma each_section (R : effect -> Prop) {A} h label arg (l : list A)
    (f : A -> M unit) :
  (forall e, steady e -> R e) ->
  (forall x, keeps (Forall R) report_exn (f x)) ->
  keeps (Forall R) report_exn
    (bind (section h label) (fun _ => with_table h arg (for_each l f))).
Proof.
  intros HR Hf. apply each_bind; [by apply each_io, HR|intros _].
  apply each_with_table; [by apply HR|by apply HR|by apply each_for_each].
Qed.

Section Closing.

Context {P : Type} `{PatternClass P}.

Variables (args : list string) (project : GitProject)
          (name output : string) (format : option string)
          (patterns : option (list string))
          (remote : option string) (gitiles : bool)
          (os_path_exists : string -> bool).

Local Abbreviation run :=
  (generate_report (P:=P) args project name output format patterns remote
     gitiles os_path_exists).

Local Abbreviation pattern := (build_pattern (P:=P) patterns).

(** The loop over the ranges opens and closes no document, whatever
    fails in it. *)
Lemma steady_report_loop (pat : P) docs erefs brefs todo logs :
  keeps (Forall steady) report_exn
    (report_loop args project name remote gitiles pat docs erefs brefs
       todo logs).
Proof.
  revert logs. induction todo as [|ref todo IH]; intros logs;
    [apply each_ret|].
  cbn [report_loop].
  apply each_bind.
  { intros w. rewrite pure_extract_range. split; [|done].
    eexists. split; [done|]. apply steady_quiet, quiet_range. }
  intros logs'. apply each_bind.
  { unfold render_text. destruct (ftext docs) as [ft|]; [|apply each_ret].
    apply each_bind; [by apply each_io|intros _].
    apply each_bind.
    { apply each_with_table; [done|done|]. apply each_for_each.
      intros r. by apply each_io. }
    intros _. destruct (ftextp docs) as [ftp|]; [|apply each_ret].
    apply each_section; [done|]. intros r.
    destruct (pattern_match _ _ _); [by apply each_io|apply each_ret]. }
  intros _. apply each_bind; [|intros _; apply IH].
  unfold render_html. destruct (fhtml docs) as [fh|]; [|apply each_ret].
  apply each_bind; [by apply each_io|intros _].
  apply each_bind.
  { apply each_with_table; [done|done|]. apply each_for_each.
    intros r. by apply each_io. }
  intros _. destruct (fhtmlp docs) as [fhp|]; [|apply each_ret].
  apply each_section; [done|]. intros r.
  destruct (negb _); [apply each_ret|by apply each_io].
Qed.

(** Opening: nothing is closed; when it returns, it returns the
    documents the format and the pattern ask for, all opened. *)
Lemma open_documents_any (pat : P) w :
  exists d,
    trace (snd (open_documents name output format os_path_exists pat w)) =
      trace w ++ d /\
    closed_handles d = [] /\
    forall docs,
      fst (open_documents name output format os_path_exists pat w) = Ok docs ->
      docs = opened_documents format pat /\
      opened_handles d =
        List.filter (is_open format pat) [Ftext; Ftextp; Fhtml; Fhtmlp].
Proof.
  unfold open_documents, open_if, FormattedFile_open, makedirs,
    opened_documents, is_open, want_text, want_html.
  destruct (format_truthy format && format_in format ["all"; "text"]),
    (format_truthy format && format_in format ["all"; "html"]),
    (pattern_bool pat), (os_path_exists output);
    destruct w as [tr [[|[|[|[|[|n]]]]]|]];
    unfold bind, io, perform, ret, emit;
    cbn -[HTML_CSS PyStr.path_join];
    (eexists; split; [rewrite <- ?app_assoc; reflexivity|];
     split; [reflexivity|];
     intros docs Hd;
     first [discriminate Hd | injection Hd as <-; split; reflexivity]).
Qed.

(** Closing: the documents are closed in the closing order, up to the
    first close that fails. *)
Lemma close_documents_any (pat : P) w :
  exists d,
    trace (snd (close_documents (opened_documents format pat) w)) =
      trace w ++ d /\
    opened_handles d = [] /\
    closed_handles d `prefix_of`
      List.filter (is_open format pat) [Ftextp; Fhtmlp; Ftext; Fhtml] /\
    (fst (close_documents (opened_documents format pat) w) = Ok tt ->
     d = map (fun h => Doc h EvClose)
           (List.filter (is_open format pat) [Ftextp; Fhtmlp; Ftext; Fhtml])) /\
    (forall e,
       fst (close_documents (opened_documents format pat) w) = Raise e ->
       exists h, is_open format pat h = true /\ h ∉ closed_handles d).
Proof.
  unfold close_documents, close_if, close, opened_documents, is_open.
  destruct (want_text format), (want_html format), (pattern_bool pat);
    destruct w as [tr [[|[|[|[|n]]]]|]];
    unfold bind, io, perform, ret, emit; cbn;
    (eexists; split;
       [first [rewrite <- ?app_assoc; reflexivity
              |symmetry; apply app_nil_r]|];
     split; [reflexivity|];
     split; [by eexists|];
     split; [intros Hd; first [discriminate Hd | reflexivity]|];
     intros e He; first
       [ discriminate He
       | exists Ftextp; split; [reflexivity|]; simpl;
         rewrite ?elem_of_cons, elem_of_nil; intuition discriminate
       | exists Fhtmlp; split; [reflexivity|]; simpl;
         rewrite ?elem_of_cons, elem_of_nil; intuition discriminate
       | exists Ftext; split; [reflexivity|]; simpl;
         rewrite ?elem_of_cons, elem_of_nil; intuition discriminate
       | exists Fhtml; split; [reflexivity|]; simpl;
         rewrite ?elem_of_cons, elem_of_nil; intuition discriminate ]).
Qed.

Lemma closed_closes l :
  closed_handles (map (fun h => Doc h EvClose) l) = l.
Proof. induction l as [|h l IH]; simpl; congruence. Qed.

Lemma doc_events_closes (pat : P) h :
  is_open format pat h = true ->
  doc_events h
    (map (fun h' => Doc h' EvClose)
       (List.filter (is_open format pat) [Ftextp; Fhtmlp; Ftext; Fhtml])) =
  [EvClose].
Proof.
  unfold is_open.
  destruct h, (want_text format), (want_html format), (pattern_bool pat);
    done.
Qed.

Lemma open_is_opened (pat : P) h :
  is_open format pat h = true ->
  h ∈ List.filter (is_open format pat) [Ftext; Ftextp; Fhtml; Fhtmlp].
Proof.
  unfold is_open.
  destruct h, (want_text format), (want_html format), (pattern_bool pat);
    cbn; intros ?; try done; rewrite ?elem_of_cons; auto.
Qed.

(** C10, as the code has it.  Documents are closed by the four closing
    calls only, in the order filter.txt, filter.html, report.txt,
    report.html.  When the run returns, every opened document has been
    closed, once, as the last call on it.  When the run raises after a
    document has been opened, whatever operation failed, at least one
    opened document is left unclosed. *)
Theorem documents_closed budget r w' :
  run (fresh budget) = (r, w') ->
  closed_handles (trace w') `prefix_of`
    List.filter (is_open format pattern) [Ftextp; Fhtmlp; Ftext; Fhtml] /\
  (forall logs, r = Ok logs ->
     opened_handles (trace w') =
       List.filter (is_open format pattern) [Ftext; Ftextp; Fhtml; Fhtmlp] /\
     closed_handles (trace w') =
       List.filter (is_open format pattern) [Ftextp; Fhtmlp; Ftext; Fhtml] /\
     forall h, is_open format pattern h = true ->
       last (doc_events h (trace w')) = Some EvClose) /\
  (forall e, r = Raise e ->
     opened_handles (trace w') <> [] ->
     exists h, h ∈ opened_handles (trace w') /\
               h ∉ closed_handles (trace w')).
Proof.
  assert (Hnone : forall (tr : list effect) rr,
    closed_handles tr = [] ->
    closed_handles tr `prefix_of`
      List.filter (is_open format pattern) [Ftextp; Fhtmlp; Ftext; Fhtml] /\
    (forall logs : list CommitRecord,
       (Raise rr : result (list CommitRecord)) = Ok logs ->
       opened_handles tr =
         List.filter (is_open format pattern) [Ftext; Ftextp; Fhtml; Fhtmlp] /\
       closed_handles tr =
         List.filter (is_open format pattern) [Ftextp; Fhtmlp; Ftext; Fhtml] /\
       forall h, is_open format pattern h = true ->
         last (doc_events h tr) = Some EvClose) /\
    (forall e, (Raise rr : result (list CommitRecord)) = Raise e ->
       opened_handles tr <> [] ->
       exists h, h ∈ opened_handles tr /\ h ∉ closed_handles tr)).
  { intros tr rr Hc. rewrite Hc. split; [by eexists|]. split; [done|].
    intros e _ Ho. destruct (opened_handles tr) as [|h l]; [done|].
    exists h. split; [left|apply not_elem_of_nil]. }
  unfold generate_report. unfold bind at 1. rewrite resolve_ranges_run.
  destruct (resolve_value args project) as [[erefs brefs]|e0].
  2:{ intros [= <- <-]. apply Hnone. cbn [trace emit fresh app].
      apply closed_quiet, quiet_resolve. }
  set (w1 := emit (resolve_effects args project) (fresh budget)).
  assert (Ho1 : opened_handles (trace w1) = [])
    by apply opened_quiet, quiet_resolve.
  assert (Hc1 : closed_handles (trace w1) = [])
    by apply closed_quiet, quiet_resolve.
  assert (Hd1 : forall h, doc_events h (trace w1) = [])
    by (intros h; apply doc_events_quiet, quiet_resolve).
  unfold bind at 1.
  destruct (open_documents_any pattern w1) as (d2 & Ht2 & Hc2 & Hok2).
  destruct (open_documents name output format os_path_exists pattern w1)
    as [[docs|e2] w2]; cbn [fst snd] in *.
  2:{ intros [= <- <-]. apply Hnone. by rewrite Ht2, closed_app, Hc1, Hc2. }
  destruct (Hok2 docs eq_refl) as [-> Ho2]. clear Hok2.
  unfold bind at 1.
  destruct (steady_report_loop pattern (opened_documents format pattern)
              erefs brefs brefs [] w2) as [(d3 & Ht3 & Hq3) _].
  destruct (report_loop _ _ _ _ _ _ _ _ _ _ _ w2) as [[logs|e3] w3];
    cbn [fst snd] in *.
  2:{ intros [= <- <-]. apply Hnone.
      by rewrite Ht3, Ht2, !closed_app, Hc1, Hc2, (closed_steady _ Hq3). }
  unfold bind at 1.
  destruct (close_documents_any pattern w3)
    as (d4 & Ht4 & Ho4 & Hpre & Hok4 & Hraise4).
  destruct (close_documents (opened_documents format pattern) w3)
    as [[[]|e4] w4]; cbn [fst snd] in *.
  - unfold ret. intros [= <- <-].
    assert (Hcl : closed_handles (trace w4) =
                  List.filter (is_open format pattern)
                    [Ftextp; Fhtmlp; Ftext; Fhtml]).
    { rewrite Ht4, Ht3, Ht2, !closed_app, Hc1, Hc2, (closed_steady _ Hq3).
      cbn [app]. rewrite (Hok4 eq_refl). apply closed_closes. }
    split; [by rewrite Hcl|]. split; [|done].
    intros logs' _. split; [|split; [exact Hcl|]].
    + rewrite Ht4, Ht3, Ht2, !opened_app, Ho1, Ho2, Ho4,
        (opened_steady _ Hq3). by rewrite !app_nil_r.
    + intros h Hh. rewrite Ht4, doc_events_app, (Hok4 eq_refl).
      rewrite (doc_events_closes _ _ Hh). apply last_snoc.
  - intros [= <- <-].
    assert (Hcl : closed_handles (trace w4) = closed_handles d4).
    { rewrite Ht4, Ht3, Ht2, !closed_app, Hc1, Hc2, (closed_steady _ Hq3).
      done. }
    rewrite Hcl. split; [exact Hpre|]. split; [done|].
    intros e [= <-] _. destruct (Hraise4 e4 eq_refl) as (h & Hh & Hn).
    exists h. split; [|exact Hn].
    rewrite Ht4, Ht3, Ht2, !opened_app, Ho1, Ho2, Ho4,
      (opened_steady _ Hq3), !app_nil_r. cbn [app].
    by apply open_is_opened.
Qed.

End Closing.

Lemma documents_closed_witness :
  closed_handles (trace (snd Demo.run_all)) = [Ftextp; Fhtmlp; Ftext; Fhtml] /\
  last (doc_events Ftextp (trace (snd Demo.run_all))) = Some EvClose /\
  exists h, h ∈ opened_handles (trace (snd Demo.run_failing)) /\
            h ∉ closed_handles (trace (snd Demo.run_failing)).
Proof.
  destruct (documents_closed (P:=list SpecPattern.expr) [] Demo.two_roots ""
              "out" (Some "all") (Some ["bob"]) None true (fun _ => true)
              None (Ok (Demo.logs_of Demo.run_all)) (snd Demo.run_all))
    as (_ & Hok & _); [vm_compute; reflexivity|].
  destruct (Hok _ eq_refl) as (_ & Hclose & Hlast).
  destruct (documents_closed (P:=list SpecPattern.expr) [] Demo.one_root ""
              "out" (Some "text") None None true (fun _ => true)
              (Some 4%nat) (Raise IOError) (snd Demo.run_failing))
    as (_ & _ & Hraise); [vm_compute; reflexivity|].
  split; [exact Hclose|]. split; [apply Hlast; reflexivity|].
  apply (Hraise IOError eq_refl). vm_compute. discriminate.
Defined.
